(** * AI-Powered Document Reader: narration core and file intake

    A shallow embedding of [src/hooks/useSpeechSynthesis.ts] (the
    [useSpeechSynthesis] hook and the [App] component that uses it) and of
    [src/services/fileParser.ts], followed by the properties of the
    specification that concern them.

    React state is a record; every callback is a computation in a small
    state-and-log monad: it reads and writes the record and appends the
    requests it sends to [window.speechSynthesis] to a log. *)

From Equations Require Import Equations.
From Stdlib Require Import Ascii String.
From Stdlib Require Import List Arith NArith ZArith Bool Lia.
Import ListNotations.

Set Implicit Arguments.

(* ===================================================================== *)
(** ** JavaScript strings *)
(* ===================================================================== *)

Module JS.

(** A JavaScript string is a sequence of UTF-16 code units; [charIndex],
    [substring] and [split] all count in code units. *)
Definition char := N.
Definition jsstring := list char.

(** Literals of the source, written as Rocq strings. *)
Definition js (s : string) : jsstring :=
  map N_of_ascii (list_ascii_of_string s).

Definition eqb (a b : jsstring) : bool :=
  if list_eq_dec N.eq_dec a b then true else false.

(** Truthiness of a string: only the empty string is falsy. *)
Definition truthy (s : jsstring) : bool :=
  match s with [] => false | _ :: _ => true end.

(** The character class [\s] of ECMAScript regular expressions:
    WhiteSpace and LineTerminator code points. *)
Definition isWhiteSpace (c : char) : bool :=
  ((9 <=? c) && (c <=? 13)           (* TAB LF VT FF CR *)
   || (c =? 32)                      (* SP *)
   || (c =? 160)                     (* NBSP *)
   || (c =? 5760)                    (* U+1680 *)
   || ((8192 <=? c) && (c <=? 8202)) (* U+2000 .. U+200A *)
   || (c =? 8232) || (c =? 8233)     (* LS PS *)
   || (c =? 8239)                    (* U+202F *)
   || (c =? 8287)                    (* U+205F *)
   || (c =? 12288)                   (* U+3000 *)
   || (c =? 65279))%N.               (* U+FEFF *)

(** [s.substring(start, end)]: both indices are clamped to the length and
    swapped when out of order. *)
Definition substring (s : jsstring) (start end_ : nat) : jsstring :=
  let len := length s in
  let intStart := Nat.min start len in
  let intEnd := Nat.min end_ len in
  let from := Nat.min intStart intEnd in
  let to := Nat.max intStart intEnd in
  firstn (to - from) (skipn from s).

(** [s.startsWith(p)] *)
Fixpoint startsWith (s p : jsstring) : bool :=
  match p, s with
  | [], _ => true
  | _ :: _, [] => false
  | a :: p', b :: s' => (a =? b)%N && startsWith s' p'
  end.

(** [s.includes(p)] *)
Fixpoint includes (s p : jsstring) : bool :=
  startsWith s p ||
  match s with
  | [] => false
  | _ :: s' => includes s' p
  end.

(** [items.join(sep)] *)
Fixpoint join (sep : jsstring) (items : list jsstring) : jsstring :=
  match items with
  | [] => []
  | [x] => x
  | x :: rest => x ++ sep ++ join sep rest
  end.

(** The longest run of white space at the head of a string. *)
Fixpoint wsRun (s : jsstring) : nat :=
  match s with
  | c :: r => if isWhiteSpace c then S (wsRun r) else 0
  | [] => 0
  end.

(** A sticky match of [/\s+/] with [lastIndex = q]: the index after the
    match ([+] is greedy), or [None] when the unit at [q] is not white
    space. *)
Definition execWsPlus (s : jsstring) (q : nat) : option nat :=
  match wsRun (skipn q s) with
  | 0 => None
  | S n => Some (q + S n)
  end.

(** Keeps the equation of a matched value in scope. *)
Definition inspect {A : Type} (x : A) : { y : A | x = y } :=
  exist _ x eq_refl.

(** The loop of [RegExp.prototype[Symbol.split]] for the splitter
    [/\s+/y]: [p] is the start of the pending piece, [q] the position
    tried next, [A] the pieces so far. The pattern has no capture group,
    so a match adds one piece. The call gives no limit, so the limit is
    2^32 - 1 pieces, more than the code units of any string an engine
    holds, and its test is left out. *)
Equations? splitLoop (s : jsstring) (p q : nat) (A : list jsstring)
  : list jsstring by wf (length s - q) lt :=
  splitLoop s p q A with lt_dec q (length s) := {
    | right _ => A ++ [substring s p (length s)]
    | left _ with inspect (execWsPlus s q) := {
        | exist _ None _ => splitLoop s p (S q) A
        | exist _ (Some lastIndex) z
            with Nat.eq_dec (Nat.min lastIndex (length s)) p := {
            | left _ => splitLoop s p (S q) A
            | right _ =>
                splitLoop s (Nat.min lastIndex (length s))
                          (Nat.min lastIndex (length s))
                          (A ++ [substring s p q]) } } }.
Proof.
  all: try lia.
  unfold execWsPlus in z.
  destruct (wsRun (skipn q s)); [discriminate | injection z as <-].
  lia.
Qed.

(** [s.split(/\s+/)] *)
Definition split_ws (s : jsstring) : list jsstring :=
  match s with
  | [] => match execWsPlus s 0 with
          | Some _ => []
          | None => [s]
          end
  | _ :: _ => splitLoop s 0 0 []
  end.

End JS.

Import JS.

Local Open Scope Z_scope.

(* ===================================================================== *)
(** ** The browser objects the code talks to *)
(* ===================================================================== *)

(** [src/types]: [VoiceOption], as built on line 17 of the hook. *)
Record VoiceOption := {
  name : jsstring;
  lang : jsstring;
  uri : jsstring
}.

(** A voice object of the speech backend; the code reads three fields. *)
Record SpeechSynthesisVoice := {
  voice_name : jsstring;
  voice_lang : jsstring;
  voiceURI : jsstring
}.

(** [App.handleBoundary] is rebuilt whenever [extractedText] changes; a
    closure of it is the value of [extractedText] it was built with. *)
Record BoundaryHandler := {
  closure_extractedText : jsstring
}.

(** [new SpeechSynthesisUtterance(text)], with the fields [play] assigns.
    [utterance_id] is the identity of the object. [onend] and [onerror]
    capture only state setters and the stable [handleEnd], so they carry no
    environment. *)
Record SpeechSynthesisUtterance := {
  utterance_id : nat;
  utterance_text : jsstring;
  utterance_voice : option SpeechSynthesisVoice;
  onboundary : BoundaryHandler
}.

(** Requests sent to [window.speechSynthesis]. *)
Inductive Request :=
| Cancel
| Speak (u : SpeechSynthesisUtterance)
| Pause
| Resume.

(** [pdfjsLib]: a promise that rejects is [None]. *)
Record TextItem := { str : jsstring }.
Record TextContent := { items : list TextItem }.
Record PdfPage := { getTextContent : option TextContent }.
Record PdfDocument := {
  numPages : nat;
  getPage : nat -> option PdfPage
}.
Definition ArrayBuffer := list N.
Record PdfJsLib := { getDocument : ArrayBuffer -> option PdfDocument }.

(** [mammoth.extractRawText], giving [result.value]. *)
Record Mammoth := { extractRawText : ArrayBuffer -> option jsstring }.

(** What [FileReader.readAsArrayBuffer] ends with: [onerror], or [onload]
    with [event.target?.result]. *)
Inductive ReadOutcome :=
| ReaderError
| ReaderLoad (result : option ArrayBuffer).

Record File := {
  type : jsstring;
  readAsArrayBuffer : ReadOutcome
}.

(** The part of [window] read at the time of a call. *)
Record Window := {
  getVoices : list SpeechSynthesisVoice;
  pdfjsLib : option PdfJsLib;
  mammoth : option Mammoth
}.

Record Error := { message : jsstring }.

(** A settled promise: rejected with an error, or resolved. *)
Definition Promise (A : Type) : Type := (Error + A)%type.

(* ===================================================================== *)
(** ** React state *)
(* ===================================================================== *)

Record State := {
  (* App *)
  extractedText : jsstring;
  isProcessing : bool;
  error : option jsstring;
  currentWordIndex : Z;
  (* useSpeechSynthesis *)
  voices : list VoiceOption;
  selectedVoice : option VoiceOption;
  isSpeaking : bool;
  isPaused : bool;
  utteranceRef : option SpeechSynthesisUtterance;
  (* identity of the next object made by [new] *)
  nextUtteranceId : nat
}.

(** The [useState] and [useRef] initial values. *)
Definition initialState : State := {|
  extractedText := [];
  isProcessing := false;
  error := None;
  currentWordIndex := -1;
  voices := [];
  selectedVoice := None;
  isSpeaking := false;
  isPaused := false;
  utteranceRef := None;
  nextUtteranceId := 0
|}.

(** The spec's [playState], read off the two flags of the hook. *)
Inductive PlayState := Idle | Speaking | Paused.

Definition playState (st : State) : PlayState :=
  if isSpeaking st then Speaking
  else if isPaused st then Paused
  else Idle.

(** The two flags are never set together, so [playState] loses nothing. *)
Definition flagsExclusive (st : State) : Prop :=
  isSpeaking st && isPaused st = false.

(** A callback: reads and writes the state, logs its backend requests. *)
Definition M (A : Type) : Type := State -> A * State * list Request.

Definition ret {A} (x : A) : M A := fun st => (x, st, []).

Definition bind {A B} (c : M A) (k : A -> M B) : M B :=
  fun st =>
    let '(x, st1, l1) := c st in
    let '(y, st2, l2) := k x st1 in
    (y, st2, l1 ++ l2).

Definition get : M State := fun st => (st, st, []).
Definition modify (f : State -> State) : M unit := fun st => (tt, f st, []).
Definition request (r : Request) : M unit := fun st => (tt, st, [r]).

Declare Scope callback_scope.
Delimit Scope callback_scope with callback.
Notation "x <- c1 ;; c2" := (bind c1 (fun x => c2))
  (at level 61, c1 at next level, right associativity) : callback_scope.
Notation "c1 ;; c2" := (bind c1 (fun _ => c2))
  (at level 61, right associativity) : callback_scope.
Local Open Scope callback_scope.

Definition stateAfter {A} (c : M A) (st : State) : State := snd (fst (c st)).
Definition requestsOf {A} (c : M A) (st : State) : list Request := snd (c st).

Definition setExtractedText (v : jsstring) : M unit :=
  modify (fun st =>
    {| extractedText := v; isProcessing := isProcessing st;
       error := error st; currentWordIndex := currentWordIndex st;
       voices := voices st; selectedVoice := selectedVoice st;
       isSpeaking := isSpeaking st; isPaused := isPaused st;
       utteranceRef := utteranceRef st;
       nextUtteranceId := nextUtteranceId st |}).

Definition setProcessing (v : bool) : M unit :=
  modify (fun st =>
    {| extractedText := extractedText st; isProcessing := v;
       error := error st; currentWordIndex := currentWordIndex st;
       voices := voices st; selectedVoice := selectedVoice st;
       isSpeaking := isSpeaking st; isPaused := isPaused st;
       utteranceRef := utteranceRef st;
       nextUtteranceId := nextUtteranceId st |}).

Definition setError (v : option jsstring) : M unit :=
  modify (fun st =>
    {| extractedText := extractedText st; isProcessing := isProcessing st;
       error := v; currentWordIndex := currentWordIndex st;
       voices := voices st; selectedVoice := selectedVoice st;
       isSpeaking := isSpeaking st; isPaused := isPaused st;
       utteranceRef := utteranceRef st;
       nextUtteranceId := nextUtteranceId st |}).

Definition setCurrentWordIndex (v : Z) : M unit :=
  modify (fun st =>
    {| extractedText := extractedText st; isProcessing := isProcessing st;
       error := error st; currentWordIndex := v;
       voices := voices st; selectedVoice := selectedVoice st;
       isSpeaking := isSpeaking st; isPaused := isPaused st;
       utteranceRef := utteranceRef st;
       nextUtteranceId := nextUtteranceId st |}).

Definition setVoices (v : list VoiceOption) : M unit :=
  modify (fun st =>
    {| extractedText := extractedText st; isProcessing := isProcessing st;
       error := error st; currentWordIndex := currentWordIndex st;
       voices := v; selectedVoice := selectedVoice st;
       isSpeaking := isSpeaking st; isPaused := isPaused st;
       utteranceRef := utteranceRef st;
       nextUtteranceId := nextUtteranceId st |}).

Definition setSelectedVoice (v : option VoiceOption) : M unit :=
  modify (fun st =>
    {| extractedText := extractedText st; isProcessing := isProcessing st;
       error := error st; currentWordIndex := currentWordIndex st;
       voices := voices st; selectedVoice := v;
       isSpeaking := isSpeaking st; isPaused := isPaused st;
       utteranceRef := utteranceRef st;
       nextUtteranceId := nextUtteranceId st |}).

Definition setIsSpeaking (v : bool) : M unit :=
  modify (fun st =>
    {| extractedText := extractedText st; isProcessing := isProcessing st;
       error := error st; currentWordIndex := currentWordIndex st;
       voices := voices st; selectedVoice := selectedVoice st;
       isSpeaking := v; isPaused := isPaused st;
       utteranceRef := utteranceRef st;
       nextUtteranceId := nextUtteranceId st |}).

Definition setIsPaused (v : bool) : M unit :=
  modify (fun st =>
    {| extractedText := extractedText st; isProcessing := isProcessing st;
       error := error st; currentWordIndex := currentWordIndex st;
       voices := voices st; selectedVoice := selectedVoice st;
       isSpeaking := isSpeaking st; isPaused := v;
       utteranceRef := utteranceRef st;
       nextUtteranceId := nextUtteranceId st |}).

(** [utteranceRef.current = v] *)
Definition setUtteranceRef (v : option SpeechSynthesisUtterance) : M unit :=
  modify (fun st =>
    {| extractedText := extractedText st; isProcessing := isProcessing st;
       error := error st; currentWordIndex := currentWordIndex st;
       voices := voices st; selectedVoice := selectedVoice st;
       isSpeaking := isSpeaking st; isPaused := isPaused st;
       utteranceRef := v;
       nextUtteranceId := nextUtteranceId st |}).

(** [new SpeechSynthesisUtterance(text)]: a fresh object. *)
Definition newUtterance : M nat :=
  fun st =>
    (nextUtteranceId st,
     {| extractedText := extractedText st; isProcessing := isProcessing st;
        error := error st; currentWordIndex := currentWordIndex st;
        voices := voices st; selectedVoice := selectedVoice st;
        isSpeaking := isSpeaking st; isPaused := isPaused st;
        utteranceRef := utteranceRef st;
        nextUtteranceId := S (nextUtteranceId st) |},
     []).

(* ===================================================================== *)
(** ** src/services/fileParser.ts *)
(* ===================================================================== *)

(** The [for] loop of [parsePdf], from page [i] with [n] pages to go;
    [None] when an awaited promise rejects. *)
Fixpoint pdfPages (pdf : PdfDocument) (n i : nat) (textContent : jsstring)
  : option jsstring :=
  match n with
  | O => Some textContent
  | S n' =>
      match getPage pdf i with
      | None => None
      | Some page =>
          match getTextContent page with
          | None => None
          | Some text =>
              pdfPages pdf n' (S i)
                (textContent ++ join (js " ") (map str (items text))
                   ++ [10%N] (* '\n' *))
          end
      end
  end.

(** The [try] block of [parsePdf]; [None] when it throws. *)
Definition tryParsePdf (lib : PdfJsLib) (data : ArrayBuffer)
  : option jsstring :=
  match getDocument lib data with
  | None => None
  | Some pdf => pdfPages pdf (numPages pdf) 1 []
  end.

Definition parsePdf (w : Window) (file : File) : Promise jsstring :=
  match pdfjsLib w with
  | None =>
      inl {| message := js "PDF processing library failed to load. Please check your internet connection and refresh the page." |}
  | Some lib =>
      match readAsArrayBuffer file with
      | ReaderLoad None =>
          inl {| message := js "Failed to read the file's contents." |}
      | ReaderLoad (Some data) =>
          match tryParsePdf lib data with
          | Some textContent => inr textContent
          | None =>
              inl {| message := js "Could not parse the PDF file. It may be corrupt or encrypted." |}
          end
      | ReaderError =>
          inl {| message := js "An error occurred while reading the file." |}
      end
  end.

Definition parseDocx (w : Window) (file : File) : Promise jsstring :=
  match mammoth w with
  | None =>
      inl {| message := js "Word document processing library failed to load. Please check your internet connection and refresh the page." |}
  | Some lib =>
      match readAsArrayBuffer file with
      | ReaderLoad None =>
          inl {| message := js "Failed to read the file's contents." |}
      | ReaderLoad (Some data) =>
          match extractRawText lib data with
          | Some value => inr value
          | None =>
              inl {| message := js "Could not parse the DOCX file. It may be corrupt or not a valid .docx file." |}
          end
      | ReaderError =>
          inl {| message := js "An error occurred while reading the file." |}
      end
  end.

(* ===================================================================== *)
(** ** src/hooks/useSpeechSynthesis.ts: the hook *)
(* ===================================================================== *)

Definition isSome {A} (o : option A) : bool :=
  match o with Some _ => true | None => false end.

(** [handleVoicesChanged] is defined inside an effect; the variable
    [selectedVoice] it tests is the one of the render that ran the effect,
    here the argument [selectedVoice_seen]. *)
Definition handleVoicesChanged (selectedVoice_seen : option VoiceOption)
  (w : Window) : M unit :=
  let availableVoices :=
    map (fun v => {| name := voice_name v; lang := voice_lang v;
                     uri := voiceURI v |})
      (filter (fun voice =>
                 startsWith (voice_lang voice) (js "en")
                 || startsWith (voice_lang voice) (js "es")
                 || startsWith (voice_lang voice) (js "pt"))
         (getVoices w)) in
  setVoices availableVoices ;;
  if (0 <? length availableVoices)%nat && negb (isSome selectedVoice_seen)
  then
    let defaultVoice :=
      match find (fun v => includes (name v) (js "Google")
                           && startsWith (lang v) (js "en"))
              availableVoices with
      | Some v => Some v
      | None => nth_error availableVoices 0
      end in
    setSelectedVoice defaultVoice
  else ret tt.

(** The effect has the dependency list [[]]: it runs once, after the first
    render, where [selectedVoice] is the [null] of [useState]. That one
    closure is called by the effect and stays registered for
    ['voiceschanged'] until the component goes away. *)
Definition voiceschangedListener : Window -> M unit :=
  handleVoicesChanged (selectedVoice initialState).

Definition handleEnd : M unit := setCurrentWordIndex (-1).

Definition handleBoundary (h : BoundaryHandler) (charIndex : nat) : M unit :=
  let textUpToChar := substring (closure_extractedText h) 0 charIndex in
  let wordsUpToChar := split_ws textUpToChar in
  let wordIndex := Z.of_nat (length wordsUpToChar) - 1 in
  setCurrentWordIndex wordIndex.

(** [utterance.onend] and [utterance.onerror], as [play] sets them. *)
Definition utterance_onend : M unit :=
  setIsSpeaking false ;; setIsPaused false ;; handleEnd.

Definition utterance_onerror : M unit :=
  setIsSpeaking false ;; setIsPaused false.

(** [play], called from a render whose [onBoundary] is [handleBoundary]
    over the current [extractedText]. *)
Definition play (w : Window) (text : jsstring) : M unit :=
  st <- get ;;
  if isPaused st && isSome (utteranceRef st) then
    request Resume ;;
    setIsPaused false ;;
    setIsSpeaking true
  else
    match selectedVoice st with
    | Some selected =>
        if truthy text then
          request Cancel ;;
          id <- newUtterance ;;
          let voiceObject :=
            find (fun v => eqb (voiceURI v) (uri selected)) (getVoices w) in
          let utterance :=
            {| utterance_id := id;
               utterance_text := text;
               utterance_voice := voiceObject;
               onboundary := {| closure_extractedText := extractedText st |}
            |} in
          setUtteranceRef (Some utterance) ;;
          request (Speak utterance) ;;
          setIsSpeaking true ;;
          setIsPaused false
        else ret tt
    | None => ret tt
    end.

Definition pause : M unit :=
  st <- get ;;
  if isSpeaking st && negb (isPaused st) then
    request Pause ;;
    setIsPaused true ;;
    setIsSpeaking false
  else ret tt.

Definition stop : M unit :=
  request Cancel ;;
  setIsSpeaking false ;;
  setIsPaused false ;;
  setUtteranceRef None ;;
  handleEnd.

(* ===================================================================== *)
(** ** The App component *)
(* ===================================================================== *)

Definition words (st : State) : list jsstring := split_ws (extractedText st).

Definition handleFileProcessed (text : jsstring) : M unit :=
  stop ;;
  setExtractedText text.

Definition handleFile (w : Window) (file : option File) : M unit :=
  match file with
  | None => ret tt
  | Some file =>
      st <- get ;;
      if isProcessing st then ret tt
      else
        setError None ;;
        setProcessing true ;;
        match
          if eqb (type file) (js "application/pdf") then parsePdf w file
          else if eqb (type file)
                    (js "application/vnd.openxmlformats-officedocument.wordprocessingml.document")
          then parseDocx w file
          else inl {| message := js "Unsupported file type. Please upload a PDF or DOCX file." |}
        with
        | inr text => handleFileProcessed text
        | inl err =>
            setError (Some (if truthy (message err) then message err
                            else js "Failed to process the file."))
        end ;;
        setProcessing false
  end.

(* ===================================================================== *)
(** ** Everything that can happen to the mounted component *)
(* ===================================================================== *)

Inductive Event :=
| EffectMount (w : Window)            (* the effect's own call, line 28 *)
| Voiceschanged (w : Window)          (* the backend's 'voiceschanged' *)
| CallSetSelectedVoice (v : VoiceOption)
| CallPlay (w : Window) (text : jsstring)
| CallPause
| CallStop
| CallHandleFile (w : Window) (file : option File)
| OnBoundary (u : SpeechSynthesisUtterance) (charIndex : nat)
| OnEnd (u : SpeechSynthesisUtterance)
| OnError (u : SpeechSynthesisUtterance).

Definition dispatch (e : Event) : M unit :=
  match e with
  | EffectMount w => voiceschangedListener w
  | Voiceschanged w => voiceschangedListener w
  | CallSetSelectedVoice v => setSelectedVoice (Some v)
  | CallPlay w text => play w text
  | CallPause => pause
  | CallStop => stop
  | CallHandleFile w file => handleFile w file
  | OnBoundary u charIndex => handleBoundary (onboundary u) charIndex
  | OnEnd _ => utterance_onend
  | OnError _ => utterance_onerror
  end.

Fixpoint run (trace : list Event) : M unit :=
  match trace with
  | [] => ret tt
  | e :: rest => dispatch e ;; run rest
  end.

(** The backend only raises events on utterances it was given: every
    utterance event of the trace follows a [Speak] of that utterance. *)
Fixpoint feasibleFrom (st : State) (log : list Request) (trace : list Event)
  : Prop :=
  match trace with
  | [] => True
  | e :: rest =>
      match e with
      | OnBoundary u _ | OnEnd u | OnError u => In (Speak u) log
      | _ => True
      end
      /\ feasibleFrom (stateAfter (dispatch e) st)
           (log ++ requestsOf (dispatch e) st) rest
  end.

Definition feasible (trace : list Event) : Prop :=
  feasibleFrom initialState [] trace.

(** The states the mounted component can be in. *)
Definition reachable (st : State) : Prop :=
  exists trace, feasible trace /\ stateAfter (run trace) initialState = st.

Definition countSpeak (log : list Request) : nat :=
  length (filter (fun r => match r with Speak _ => true | _ => false end) log).

Definition countCancel (log : list Request) : nat :=
  length (filter (fun r => match r with Cancel => true | _ => false end) log).

(* ===================================================================== *)
(** ** The specification's words *)
(* ===================================================================== *)

Module Spec.

(** "the substring of [sourceText] from 0 up to (exclusive) that offset" *)
Definition prefix (sourceText : jsstring) (offset : nat) : jsstring :=
  firstn offset sourceText.

(** "splits it on whitespace runs": every maximal run of white space is
    one separator, and the pieces around the separators are the tokens.
    [piece] is the token being read; [inRun] tells that the last unit
    belonged to a separator. *)
Fixpoint tokensFrom (inRun : bool) (piece : jsstring) (s : jsstring)
  : list jsstring :=
  match s with
  | [] => [piece]
  | c :: r =>
      if isWhiteSpace c then
        if inRun then tokensFrom true [] r
        else piece :: tokensFrom true [] r
      else tokensFrom false (piece ++ [c]) r
  end.

Definition splitOnWhitespaceRuns (s : jsstring) : list jsstring :=
  tokensFrom false [] s.

(** "the resulting token count minus one" *)
Definition wordIndexAt (sourceText : jsstring) (offset : nat) : Z :=
  Z.of_nat (length (splitOnWhitespaceRuns (prefix sourceText offset))) - 1.

End Spec.

(* ===================================================================== *)
(** ** Sample data for the scenarios *)
(* ===================================================================== *)

Module Sample.

Definition helloBraveWorld : jsstring := js "Hello brave world".

Definition voiceMonica : SpeechSynthesisVoice :=
  {| voice_name := js "Monica"; voice_lang := js "es-ES";
     voiceURI := js "com.apple.voice.Monica" |}.

Definition voiceGoogle : SpeechSynthesisVoice :=
  {| voice_name := js "Google US English"; voice_lang := js "en-US";
     voiceURI := js "Google US English" |}.

Definition optionMonica : VoiceOption :=
  {| name := js "Monica"; lang := js "es-ES";
     uri := js "com.apple.voice.Monica" |}.

Definition optionGoogle : VoiceOption :=
  {| name := js "Google US English"; lang := js "en-US";
     uri := js "Google US English" |}.

(** A PDF library that rejects every document, and a DOCX library whose
    raw text is the bytes of the file. *)
Definition rejectingPdfJs : PdfJsLib := {| getDocument := fun _ => None |}.
Definition plainMammoth : Mammoth :=
  {| extractRawText := fun data => Some data |}.

(** A browser with two voices. *)
Definition window : Window :=
  {| getVoices := [voiceMonica; voiceGoogle];
     pdfjsLib := Some rejectingPdfJs;
     mammoth := Some plainMammoth |}.

(** A browser that never reports a voice. *)
Definition silentWindow : Window :=
  {| getVoices := [];
     pdfjsLib := Some rejectingPdfJs;
     mammoth := Some plainMammoth |}.

(** The same browser after its voices were enumerated anew under other
    identifiers. *)
Definition renumberedWindow : Window :=
  {| getVoices :=
       [{| voice_name := js "Google US English"; voice_lang := js "en-US";
           voiceURI := js "voice-2" |}];
     pdfjsLib := Some rejectingPdfJs;
     mammoth := Some plainMammoth |}.

Definition helloDocx : File :=
  {| type := js "application/vnd.openxmlformats-officedocument.wordprocessingml.document";
     readAsArrayBuffer := ReaderLoad (Some helloBraveWorld) |}.

Definition brokenPdf : File :=
  {| type := js "application/pdf";
     readAsArrayBuffer := ReaderLoad (Some (js "this is not a PDF")) |}.

(** The utterances that the first and the second fresh [play] build. *)
Definition utterance (id : nat) : SpeechSynthesisUtterance :=
  {| utterance_id := id;
     utterance_text := helloBraveWorld;
     utterance_voice := Some voiceGoogle;
     onboundary := {| closure_extractedText := helloBraveWorld |} |}.

(** Mount, then load the document. *)
Definition loaded : list Event :=
  [EffectMount window; CallHandleFile window (Some helloDocx)].

(** The user picks Monica; the backend then announces its (unchanged)
    voice list once more. *)
Definition reselectTrace : list Event :=
  loaded ++
  [CallSetSelectedVoice optionMonica;
   Voiceschanged window].

(** Speech reaches "brave", then the backend reports an error. *)
Definition errorTrace : list Event :=
  loaded ++
  [CallPlay window helloBraveWorld;
   OnBoundary (utterance 0) 6;
   OnError (utterance 0)].

(** A first utterance is stopped and replaced by a second one. *)
Definition replacedTrace : list Event :=
  loaded ++
  [CallPlay window helloBraveWorld;
   CallStop;
   CallPlay window helloBraveWorld].

(** A state with a selected voice and nothing playing. *)
Definition ready : State := stateAfter (run loaded) initialState.

End Sample.

(* ===================================================================== *)
(** ** The App component: Controls and TextDisplay *)
(* ===================================================================== *)

(** [Controls.handleVoiceSelect]; [onVoiceChange] is [setSelectedVoice]. *)
Definition handleVoiceSelect (selectedUri : jsstring) : M unit :=
  st <- get ;;
  match find (fun v => eqb (uri v) selectedUri) (voices st) with
  | Some voice => setSelectedVoice (Some voice)
  | None => ret tt
  end.

(** The first button of [Controls]: [onClick={isSpeaking ? pause : play}]
    with [play = () => play(extractedText)]. [Controls] is rendered only
    while [extractedText] is truthy, so there is nothing to click
    otherwise. *)
Definition clickPlayPause (w : Window) : M unit :=
  st <- get ;;
  if truthy (extractedText st) then
    if isSpeaking st then pause else play w (extractedText st)
  else ret tt.

(** One [<span>] of [TextDisplay]: its word, and whether it carries the
    highlight classes. *)
Record Span := {
  span_word : jsstring;
  span_highlighted : bool
}.

(** [words.map((word, index) => ...)], from position [index] on. *)
Fixpoint spansFrom (index : nat) (words : list jsstring)
  (currentWordIndex : Z) : list Span :=
  match words with
  | [] => []
  | word :: rest =>
      {| span_word := word;
         span_highlighted := (Z.of_nat index =? currentWordIndex) |}
      :: spansFrom (S index) rest currentWordIndex
  end.

(** [TextDisplay]: [null] when [text] is falsy. *)
Definition TextDisplay (text : jsstring) (words : list jsstring)
  (currentWordIndex : Z) : option (list Span) :=
  if truthy text then Some (spansFrom 0 words currentWordIndex) else None.

(** [{extractedText && <TextDisplay text={extractedText} words={words}
    currentWordIndex={currentWordIndex} />}] *)
Definition renderTextDisplay (st : State) : option (list Span) :=
  if truthy (extractedText st)
  then TextDisplay (extractedText st) (words st) (currentWordIndex st)
  else None.

(** The decoding step of [handleFile], lines 129 to 136. *)
Definition decodeFile (w : Window) (file : File) : Promise jsstring :=
  if eqb (type file) (js "application/pdf") then parsePdf w file
  else if eqb (type file)
            (js "application/vnd.openxmlformats-officedocument.wordprocessingml.document")
  then parseDocx w file
  else inl {| message := js "Unsupported file type. Please upload a PDF or DOCX file." |}.

(* ===================================================================== *)
(** ** Vocabulary of the further properties *)
(* ===================================================================== *)

(** The language test of the filter on line 16. *)
Definition supportedLanguage (l : jsstring) : bool :=
  startsWith l (js "en") || startsWith l (js "es") || startsWith l (js "pt").

(** The test of the default voice on line 21. *)
Definition preferredVoice (v : VoiceOption) : bool :=
  includes (name v) (js "Google") && startsWith (lang v) (js "en").

(** The units of a string up to its first white space. *)
Fixpoint takeWord (s : jsstring) : jsstring :=
  match s with
  | c :: r => if isWhiteSpace c then [] else c :: takeWord r
  | [] => []
  end.

Definition whitespaceFree (s : jsstring) : Prop :=
  Forall (fun c => isWhiteSpace c = false) s.

(** What one page adds to the text of a PDF. *)
Definition pageLine (text : TextContent) : jsstring :=
  join (js " ") (map str (items text)) ++ [10%N].

(** A narration in progress holds its utterance. *)
Definition activeHasUtterance (st : State) : Prop :=
  isSpeaking st || isPaused st = true -> utteranceRef st <> None.

Module Fixture.

Definition page (l : list string) : PdfPage :=
  {| getTextContent :=
       Some {| items := map (fun x => {| str := js x |}) l |} |}.

(** A PDF of two pages; any bytes open it. *)
Definition twoPages : PdfDocument :=
  {| numPages := 2;
     getPage := fun i =>
       match i with
       | 1%nat => Some (page ["Hello"; "brave"]%string)
       | 2%nat => Some (page ["world"]%string)
       | _ => None
       end |}.

(** A PDF whose second page cannot be read. *)
Definition brokenSecondPage : PdfDocument :=
  {| numPages := 2;
     getPage := fun i =>
       match i with
       | 1%nat => Some (page ["Hello"]%string)
       | 2%nat => Some {| getTextContent := None |}
       | _ => None
       end |}.

Definition pdfWindow (pdf : PdfDocument) : Window :=
  {| getVoices := [Sample.voiceMonica; Sample.voiceGoogle];
     pdfjsLib := Some {| getDocument := fun _ => Some pdf |};
     mammoth := None |}.

Definition somePdf : File :=
  {| type := js "application/pdf";
     readAsArrayBuffer := ReaderLoad (Some (js "%PDF-1.7")) |}.

Definition textFile : File :=
  {| type := js "text/plain";
     readAsArrayBuffer := ReaderLoad (Some (js "plain")) |}.

(** The document is loaded and being read aloud. *)
Definition speakingTrace : list Event :=
  Sample.loaded ++ [CallPlay Sample.window Sample.helloBraveWorld].

Definition speaking : State := stateAfter (run speakingTrace) initialState.

(** ... and then paused. *)
Definition pausedTrace : list Event := speakingTrace ++ [CallPause].

Definition paused : State := stateAfter (run pausedTrace) initialState.

End Fixture.

(* ===================================================================== *)
(** ** Facts about the string operations *)
(* ===================================================================== *)

Section StringFacts.

Implicit Types (s r piece : jsstring) (p q : nat).

Lemma substring_from_0 s c : substring s 0 c = Spec.prefix s c.
Proof.
  unfold substring, Spec.prefix.
  rewrite Nat.min_0_l, Nat.max_0_l, Nat.sub_0_r. cbn [skipn].
  destruct (Nat.le_ge_cases c (length s)) as [H | H].
  - now rewrite Nat.min_l.
  - rewrite Nat.min_r by exact H.
    now rewrite firstn_all, firstn_all2.
Qed.

Lemma substring_inside s p q :
  (p <= q <= length s)%nat ->
  substring s p q = firstn (q - p) (skipn p s).
Proof.
  intros [Hpq Hq]. unfold substring.
  rewrite (Nat.min_l p), (Nat.min_l q), (Nat.min_l p q), (Nat.max_r p q)
    by lia.
  reflexivity.
Qed.

Lemma wsRun_le s : (wsRun s <= length s)%nat.
Proof.
  induction s as [| c r IH]; cbn; [lia |].
  destruct (isWhiteSpace c); lia.
Qed.

(** After a separator has begun, the rest of the run is skipped. *)
Lemma tokensFrom_skip_run r :
  Spec.tokensFrom true [] r = Spec.tokensFrom false [] (skipn (wsRun r) r).
Proof.
  induction r as [| c r IH]; cbn; [reflexivity |].
  destruct (isWhiteSpace c) eqn:E; cbn.
  - exact IH.
  - now rewrite E.
Qed.

Lemma tokensFrom_nonempty r : forall inRun piece,
  (1 <= length (Spec.tokensFrom inRun piece r))%nat.
Proof.
  induction r as [| c r IH]; intros inRun piece; cbn; [lia |].
  destruct (isWhiteSpace c), inRun; cbn; try apply IH.
  lia.
Qed.

(** One more unit of the pending piece. *)
Lemma piece_snoc s p q c r :
  (p <= q)%nat -> skipn q s = c :: r ->
  firstn (S q - p) (skipn p s) = firstn (q - p) (skipn p s) ++ [c].
Proof.
  intros Hpq Hq.
  assert (Hs : skipn p s = firstn (q - p) (skipn p s) ++ c :: r).
  { rewrite <- Hq.
    replace q with ((q - p) + p)%nat at 2 by lia.
    rewrite <- skipn_skipn. symmetry. apply firstn_skipn. }
  assert (Hlt : (q < length s)%nat).
  { apply (f_equal (@length _)) in Hq.
    rewrite length_skipn in Hq. cbn in Hq. lia. }
  assert (Hl : length (firstn (q - p) (skipn p s)) = (q - p)%nat).
  { rewrite length_firstn, length_skipn. lia. }
  rewrite Hs at 1.
  replace (S q - p)%nat with (length (firstn (q - p) (skipn p s)) + 1)%nat
    by lia.
  rewrite firstn_app_2. reflexivity.
Qed.

End StringFacts.

Section SplitFacts.

Implicit Types (s r : jsstring) (p q : nat) (A : list jsstring).

Lemma skipn_head s : forall q,
  (q < length s)%nat -> exists c, skipn q s = c :: skipn (S q) s.
Proof.
  induction s as [| c r IH]; intros q Hq; cbn in Hq; [lia |].
  destruct q as [| q].
  - now exists c.
  - destruct (IH q) as [c' Hc']; [lia |]. now exists c'.
Qed.

Lemma execWsPlus_None s q :
  (q < length s)%nat -> execWsPlus s q = None ->
  exists c, skipn q s = c :: skipn (S q) s /\ isWhiteSpace c = false.
Proof.
  intros Hq He. destruct (skipn_head s Hq) as [c Hc].
  exists c. split; [exact Hc |].
  unfold execWsPlus in He. rewrite Hc in He. cbn in He.
  now destruct (isWhiteSpace c).
Qed.

Lemma execWsPlus_Some s q lastIndex :
  (q < length s)%nat -> execWsPlus s q = Some lastIndex ->
  exists c, skipn q s = c :: skipn (S q) s /\ isWhiteSpace c = true
            /\ lastIndex = (S q + wsRun (skipn (S q) s))%nat
            /\ (lastIndex <= length s)%nat.
Proof.
  intros Hq He. destruct (skipn_head s Hq) as [c Hc].
  exists c. split; [exact Hc |].
  unfold execWsPlus in He. rewrite Hc in He.
  remember (skipn (S q) s) as r eqn:Hr. cbn in He.
  destruct (isWhiteSpace c); cbn in He; [| discriminate].
  injection He as <-. split; [reflexivity |]. split; [lia |].
  pose proof (wsRun_le r) as Hle.
  assert (length r = length s - S q)%nat
    by (rewrite Hr; apply length_skipn).
  lia.
Qed.

(** The loop of [split] and the specification's tokens agree from every
    position of the loop: [s[p, q)] is the pending piece, free of white
    space, and [s[q, ..)] is still to be read. *)
Lemma splitLoop_tokens s p q A :
  (p <= q <= length s)%nat ->
  Forall (fun c => isWhiteSpace c = false) (firstn (q - p) (skipn p s)) ->
  splitLoop s p q A =
  A ++ Spec.tokensFrom false (firstn (q - p) (skipn p s)) (skipn q s).
Proof.
  funelim (splitLoop s p q A); intros Hpq Hpiece.
  - (* the loop is over: the pending piece is the last token *)
    assert (q = length s) by lia. subst q.
    rewrite skipn_all. cbn. f_equal. f_equal.
    apply substring_inside. lia.
  - (* no match at q: the unit joins the pending piece *)
    destruct (execWsPlus_None s l e) as (c & Hc & Hws).
    rewrite Hc. cbn. rewrite Hws.
    rewrite <- (piece_snoc s (r := skipn (S q) s)) by (lia || exact Hc).
    apply H; [lia |].
    rewrite (piece_snoc s (r := skipn (S q) s)) by (lia || exact Hc).
    apply Forall_app. split; [exact Hpiece | now constructor].
  - (* a match that ends at p: cannot happen, the match is not empty *)
    destruct (execWsPlus_Some s l z) as (c & _ & _ & -> & Hle). lia.
  - (* a run of white space: the piece is pushed, the run skipped *)
    destruct (execWsPlus_Some s l z) as (c & Hc & Hws & -> & Hle).
    rewrite Nat.min_l in * by exact Hle.
    rewrite H; [| lia | rewrite Nat.sub_diag; constructor].
    rewrite Nat.sub_diag. cbn [firstn].
    rewrite Hc. cbn [Spec.tokensFrom]. rewrite Hws.
    rewrite tokensFrom_skip_run, skipn_skipn.
    rewrite <- app_assoc. cbn [app].
    rewrite substring_inside by lia.
    now rewrite (Nat.add_comm (wsRun _)).
Qed.

(** [split(/\s+/)] computes the specification's tokens. *)
Lemma split_ws_tokens s : split_ws s = Spec.splitOnWhitespaceRuns s.
Proof.
  destruct s as [| c r]; [reflexivity |].
  unfold split_ws, Spec.splitOnWhitespaceRuns.
  rewrite splitLoop_tokens; [reflexivity | cbn; lia | constructor].
Qed.

Lemma split_ws_nonempty s : (1 <= length (split_ws s))%nat.
Proof. rewrite split_ws_tokens. apply tokensFrom_nonempty. Qed.

Example split_ws_hello_brave_world :
  split_ws (js "Hello brave world") = [js "Hello"; js "brave"; js "world"].
Proof. reflexivity. Qed.

Example split_ws_trailing_space :
  split_ws (js "Hello ") = [js "Hello"; []].
Proof. reflexivity. Qed.

Example split_ws_leading_and_double_space :
  split_ws (js "  Hello   brave") = [[]; js "Hello"; js "brave"].
Proof. reflexivity. Qed.

Example split_ws_empty : split_ws [] = [[]].
Proof. reflexivity. Qed.

End SplitFacts.

(* ===================================================================== *)
(** ** Reachable states *)
(* ===================================================================== *)

Section Invariant.

Lemma stateAfter_bind {A B} (c : M A) (k : A -> M B) st :
  stateAfter (bind c k) st = stateAfter (k (fst (fst (c st)))) (stateAfter c st).
Proof.
  unfold stateAfter, bind.
  destruct (c st) as [[x st1] l1]. cbn.
  destruct (k x st1) as [[y st2] l2]. reflexivity.
Qed.

Lemma dispatch_flagsExclusive e st :
  flagsExclusive st -> flagsExclusive (stateAfter (dispatch e) st).
Proof.
  unfold flagsExclusive, stateAfter.
  destruct e as [w | w | v | w text | | | w file | u c | u | u]; cbn;
    intros H; try exact H; try reflexivity.
  - unfold voiceschangedListener, handleVoicesChanged, bind. cbn.
    match goal with |- context [if ?b then _ else _] => destruct b end;
      cbn; exact H.
  - unfold voiceschangedListener, handleVoicesChanged, bind. cbn.
    match goal with |- context [if ?b then _ else _] => destruct b end;
      cbn; exact H.
  - unfold play, bind, get. cbn.
    destruct (isPaused st && isSome (utteranceRef st)); cbn; [reflexivity |].
    destruct (selectedVoice st); cbn; [| exact H].
    destruct (truthy text); cbn; [reflexivity | exact H].
  - unfold pause, bind, get. cbn.
    destruct (isSpeaking st && negb (isPaused st)); cbn;
      [reflexivity | exact H].
  - destruct file as [file |]; cbn; [| exact H].
    unfold bind. cbn.
    destruct (isProcessing st); cbn; [exact H |].
    match goal with
    | |- context [match ?x with inl _ => _ | inr _ => _ end] => destruct x
    end; cbn; [exact H | reflexivity].
Qed.

Lemma run_flagsExclusive trace : forall st,
  flagsExclusive st -> flagsExclusive (stateAfter (run trace) st).
Proof.
  induction trace as [| e rest IH]; intros st H; [exact H |].
  cbn [run]. rewrite stateAfter_bind. apply IH.
  now apply dispatch_flagsExclusive.
Qed.

(** In every reachable state at most one of [isSpeaking] and [isPaused]
    holds. *)
Lemma reachable_flagsExclusive st : reachable st -> flagsExclusive st.
Proof.
  intros (trace & _ & <-). now apply run_flagsExclusive.
Qed.

End Invariant.

(* ===================================================================== *)
(** ** Word index of a boundary event *)
(* ===================================================================== *)

Lemma handleBoundary_index h c st :
  currentWordIndex (stateAfter (handleBoundary h c) st)
  = Spec.wordIndexAt (closure_extractedText h) c.
Proof.
  unfold handleBoundary, Spec.wordIndexAt, stateAfter, setCurrentWordIndex,
    modify.
  cbn [fst snd currentWordIndex].
  now rewrite substring_from_0, split_ws_tokens.
Qed.

(** The utterance a fresh [play] hands to the backend reports its
    boundaries against the text on display at that moment. *)
Lemma play_binds_extractedText w text st u :
  In (Speak u) (requestsOf (play w text) st) ->
  closure_extractedText (onboundary u) = extractedText st.
Proof.
  unfold play, requestsOf. cbn.
  destruct (isPaused st && isSome (utteranceRef st)); cbn.
  - intros [H | []]. discriminate H.
  - destruct (selectedVoice st); cbn; [| intros []].
    destruct (truthy text); cbn; [| intros []].
    intros [H | [H | []]]; [discriminate H |].
    injection H as <-. reflexivity.
Qed.

(** C1: for every loaded text T and every boundary event with character
    offset c, the handler sets [currentWordIndex] to the number of tokens
    obtained by splitting T[0, c) on whitespace runs, minus one; for
    T = "Hello brave world" and c = 6 it sets it to 1. *)
Theorem boundary_sets_token_count_minus_one :
  (forall (T : jsstring) (c : nat) (st : State),
      currentWordIndex
        (stateAfter (handleBoundary {| closure_extractedText := T |} c) st)
      = Z.of_nat
          (length (Spec.splitOnWhitespaceRuns (Spec.prefix T c))) - 1)
  /\ (forall st : State,
         currentWordIndex
           (stateAfter
              (handleBoundary
                 {| closure_extractedText := js "Hello brave world" |} 6) st)
         = 1).
Proof.
  split.
  - intros T c st. apply handleBoundary_index.
  - intros st. rewrite handleBoundary_index. reflexivity.
Qed.

(** C10: for every text, the empty one included, and every offset c >= 0
    the word index computed by the boundary handler is at least 0, since
    splitting any string on whitespace runs gives at least one token; a
    boundary event never sets [currentWordIndex] to -1, and a boundary at
    offset 0 sets it to 0. *)
Theorem boundary_index_nonnegative :
  forall (h : BoundaryHandler) (c : nat) (st : State),
    (1 <= length (split_ws (substring (closure_extractedText h) 0 c)))%nat
    /\ 0 <= currentWordIndex (stateAfter (handleBoundary h c) st)
    /\ currentWordIndex (stateAfter (handleBoundary h c) st) <> -1
    /\ currentWordIndex (stateAfter (handleBoundary h 0) st) = 0.
Proof.
  intros h c st.
  pose proof (split_ws_nonempty (substring (closure_extractedText h) 0 c))
    as Hone.
  assert (Hidx : currentWordIndex (stateAfter (handleBoundary h c) st)
                 = Z.of_nat
                     (length
                        (split_ws (substring (closure_extractedText h) 0 c)))
                   - 1) by reflexivity.
  split; [exact Hone |].
  split; [lia |].
  split; [lia |].
  rewrite handleBoundary_index. reflexivity.
Qed.

(* ===================================================================== *)
(** ** stop *)
(* ===================================================================== *)

(** C6: [stop()] from any state leaves [playState = Idle] and
    [currentWordIndex = -1] and sends exactly one cancel request; a second
    [stop()] changes nothing more, and the call is safe from [Idle]. *)
Theorem stop_resets_and_cancels_once :
  forall st : State,
    playState (stateAfter stop st) = Idle
    /\ currentWordIndex (stateAfter stop st) = -1
    /\ requestsOf stop st = [Cancel]
    /\ countCancel (requestsOf stop st) = 1%nat
    /\ stateAfter stop (stateAfter stop st) = stateAfter stop st
    /\ requestsOf stop (stateAfter stop st) = [Cancel]
    /\ stateAfter stop initialState = initialState.
Proof.
  intros st. repeat split.
Qed.

(* ===================================================================== *)
(** ** play *)
(* ===================================================================== *)

(** The branch of [play] that builds an utterance (lines 42 to 64). *)
Lemma play_fresh w text st selected :
  isPaused st && isSome (utteranceRef st) = false ->
  selectedVoice st = Some selected ->
  truthy text = true ->
  let u := {| utterance_id := nextUtteranceId st;
              utterance_text := text;
              utterance_voice :=
                find (fun v => eqb (voiceURI v) (uri selected)) (getVoices w);
              onboundary := {| closure_extractedText := extractedText st |}
           |} in
  requestsOf (play w text) st = [Cancel; Speak u]
  /\ utteranceRef (stateAfter (play w text) st) = Some u
  /\ isSpeaking (stateAfter (play w text) st) = true
  /\ isPaused (stateAfter (play w text) st) = false
  /\ currentWordIndex (stateAfter (play w text) st) = currentWordIndex st.
Proof.
  intros Hresume Hsel Htext.
  unfold play, requestsOf, stateAfter, bind, get. cbn.
  rewrite Hresume, Hsel, Htext. cbn. repeat split.
Qed.

(** The branch of [play] that resumes (lines 38 to 41). *)
Lemma play_resume w text st :
  isPaused st && isSome (utteranceRef st) = true ->
  requestsOf (play w text) st = [Resume]
  /\ utteranceRef (stateAfter (play w text) st) = utteranceRef st
  /\ nextUtteranceId (stateAfter (play w text) st) = nextUtteranceId st
  /\ isSpeaking (stateAfter (play w text) st) = true
  /\ isPaused (stateAfter (play w text) st) = false.
Proof.
  intros Hresume.
  unfold play, requestsOf, stateAfter, bind, get. cbn.
  rewrite Hresume. cbn. repeat split.
Qed.

(** C7: in the Paused state with a live utterance handle, [play()] sends a
    resume request for the existing utterance and no speak request; the
    sequence play("Some text"), pause(), play() makes exactly one speak
    call. *)
Theorem play_resumes_paused_utterance :
  (forall (w : Window) (text : jsstring) (st : State)
          (u : SpeechSynthesisUtterance),
      isPaused st = true ->
      utteranceRef st = Some u ->
      requestsOf (play w text) st = [Resume]
      /\ countSpeak (requestsOf (play w text) st) = 0%nat
      /\ utteranceRef (stateAfter (play w text) st) = Some u
      /\ nextUtteranceId (stateAfter (play w text) st) = nextUtteranceId st
      /\ playState (stateAfter (play w text) st) = Speaking)
  /\ (forall (w : Window) (text : jsstring) (st : State) (v : VoiceOption),
         selectedVoice st = Some v ->
         isPaused st = false ->
         exists u,
           requestsOf (play w (js "Some text") ;; pause ;; play w text) st
           = [Cancel; Speak u; Pause; Resume]
           /\ countSpeak
                (requestsOf (play w (js "Some text") ;; pause ;; play w text)
                   st) = 1%nat
           /\ utteranceRef
                (stateAfter (play w (js "Some text") ;; pause ;; play w text)
                   st) = Some u).
Proof.
  split.
  - intros w text st u Hp Hu.
    assert (Hresume : isPaused st && isSome (utteranceRef st) = true)
      by now rewrite Hp, Hu.
    destruct (play_resume w text st Hresume) as (Hreq & Href & Hid & Hs & _).
    rewrite Hreq. repeat split; try assumption.
    + now rewrite Href.
    + unfold playState. now rewrite Hs.
  - intros w text st v Hsel Hp.
    eexists.
    unfold play, pause, requestsOf, stateAfter, bind, get. cbn.
    rewrite Hp, Hsel. cbn. repeat split.
Qed.

Lemma play_resumes_paused_utterance_witness :
  (requestsOf (play Sample.window [])
     (stateAfter (play Sample.window Sample.helloBraveWorld ;; pause)
        Sample.ready) = [Resume])
  /\ countSpeak
       (requestsOf
          (play Sample.window (js "Some text") ;; pause ;;
           play Sample.window []) Sample.ready) = 1%nat.
Proof.
  split.
  - apply (proj1 play_resumes_paused_utterance Sample.window []
             (stateAfter (play Sample.window Sample.helloBraveWorld ;; pause)
                Sample.ready)
             (Sample.utterance 0)); reflexivity.
  - destruct (proj2 play_resumes_paused_utterance Sample.window []
                Sample.ready Sample.optionGoogle eq_refl eq_refl)
      as (u & _ & H & _).
    exact H.
Defined.

(** C8: when a voice is selected but its [uri] matches no voice of the
    backend's list at the time of the call, [play(text)] still submits the
    utterance, with no voice set on it, so that the backend's default voice
    applies. *)
Theorem play_unresolved_voice_still_speaks
  (w : Window) (text : jsstring) (st : State) (selected : VoiceOption) :
  truthy text = true ->
  selectedVoice st = Some selected ->
  isPaused st && isSome (utteranceRef st) = false ->
  find (fun v => eqb (voiceURI v) (uri selected)) (getVoices w) = None ->
  exists u,
    requestsOf (play w text) st = [Cancel; Speak u]
    /\ utterance_voice u = None
    /\ utterance_text u = text
    /\ utteranceRef (stateAfter (play w text) st) = Some u
    /\ playState (stateAfter (play w text) st) = Speaking.
Proof.
  intros Htext Hsel Hresume Hfind.
  destruct (play_fresh w text st Hresume Hsel Htext)
    as (Hreq & Href & Hs & _).
  eexists. split; [exact Hreq |]. cbn.
  repeat split; try assumption.
  unfold playState. now rewrite Hs.
Qed.

Lemma play_unresolved_voice_still_speaks_witness :
  exists u,
    requestsOf (play Sample.renumberedWindow Sample.helloBraveWorld)
      Sample.ready = [Cancel; Speak u]
    /\ utterance_voice u = None
    /\ utterance_text u = Sample.helloBraveWorld
    /\ utteranceRef
         (stateAfter (play Sample.renumberedWindow Sample.helloBraveWorld)
            Sample.ready) = Some u
    /\ playState
         (stateAfter (play Sample.renumberedWindow Sample.helloBraveWorld)
            Sample.ready) = Speaking.
Proof.
  apply (play_unresolved_voice_still_speaks Sample.renumberedWindow
           Sample.helloBraveWorld Sample.ready (selected := Sample.optionGoogle));
    reflexivity.
Defined.

(** C3, as the code has it: [play(text)] with no selected voice (and no
    paused utterance to resume) sends nothing to the backend and changes no
    state; narration starts only once a voice is selected. *)
Theorem play_without_selected_voice_is_noop
  (w : Window) (text : jsstring) (st : State) :
  selectedVoice st = None ->
  isPaused st && isSome (utteranceRef st) = false ->
  play w text st = (tt, st, []).
Proof.
  intros Hsel Hresume.
  unfold play, bind, get. cbn.
  rewrite Hresume, Hsel. reflexivity.
Qed.

Lemma play_without_selected_voice_is_noop_witness :
  play Sample.silentWindow (js "Hello") initialState = (tt, initialState, []).
Proof.
  apply (play_without_selected_voice_is_noop Sample.silentWindow (js "Hello")
           initialState); reflexivity.
Defined.

(** C3, as stated, fails: with a backend that never reported a voice, the
    component with a document on display has an empty catalog and no
    selected voice, and [play] of the text sends no speak request. *)
Lemma play_without_voice_sends_nothing :
  ~ (forall (w : Window) (text : jsstring) (st : State),
        truthy text = true ->
        voices st = [] ->
        selectedVoice st = None ->
        exists u, In (Speak u) (requestsOf (play w text) st)).
Proof.
  intros H.
  destruct (H Sample.silentWindow Sample.helloBraveWorld
              (stateAfter
                 (run [EffectMount Sample.silentWindow;
                       CallHandleFile Sample.silentWindow
                         (Some Sample.helloDocx)])
                 initialState) eq_refl eq_refl eq_refl) as [u Hin].
  exact Hin.
Qed.

(* ===================================================================== *)
(** ** Events of the backend *)
(* ===================================================================== *)

(** C5, as the code has it: the handlers of an utterance run whenever the
    backend raises its events, with no comparison against
    [utteranceRef.current]; a boundary event of any utterance, current or
    not, sets [currentWordIndex] from its offset in the text its handler
    was built with, and changes nothing else. *)
Theorem boundary_event_is_never_filtered :
  forall (st : State) (u : SpeechSynthesisUtterance) (c : nat),
    dispatch (OnBoundary u c) st
    = (tt,
       stateAfter
         (setCurrentWordIndex
            (Spec.wordIndexAt (closure_extractedText (onboundary u)) c)) st,
       []).
Proof.
  intros st u c.
  pose proof (handleBoundary_index (onboundary u) c st) as H.
  unfold stateAfter, handleBoundary, setCurrentWordIndex, modify in *.
  cbn [dispatch fst snd currentWordIndex] in *.
  unfold handleBoundary, setCurrentWordIndex, modify.
  now rewrite H.
Qed.

(** C5, as stated, fails: after a first utterance was stopped and replaced
    by a second one, a late boundary event of the first moves the cursor of
    the running session from -1 to 1. *)
Lemma stale_boundary_moves_cursor :
  feasible (Sample.replacedTrace ++ [OnBoundary (Sample.utterance 0) 6])
  /\ utteranceRef (stateAfter (run Sample.replacedTrace) initialState)
     = Some (Sample.utterance 1)
  /\ Sample.utterance 0 <> Sample.utterance 1
  /\ currentWordIndex (stateAfter (run Sample.replacedTrace) initialState)
     = -1
  /\ currentWordIndex
       (stateAfter
          (run (Sample.replacedTrace ++ [OnBoundary (Sample.utterance 0) 6]))
          initialState) = 1.
Proof.
  split; [| split; [| split; [| split]]].
  - unfold feasible. cbn. intuition.
  - reflexivity.
  - discriminate.
  - reflexivity.
  - reflexivity.
Qed.

(** C4 on the code: speech reaches "brave" and the backend then reports an
    error; the state reached is Idle with [currentWordIndex] still 1. The
    same trace ending with the end event resets it to -1. *)
Theorem error_event_keeps_cursor :
  reachable (stateAfter (run Sample.errorTrace) initialState)
  /\ playState (stateAfter (run Sample.errorTrace) initialState) = Idle
  /\ currentWordIndex (stateAfter (run Sample.errorTrace) initialState) = 1
  /\ currentWordIndex
       (stateAfter
          (run (Sample.loaded ++
                [CallPlay Sample.window Sample.helloBraveWorld;
                 OnBoundary (Sample.utterance 0) 6;
                 OnEnd (Sample.utterance 0)])) initialState) = -1.
Proof.
  split; [| split; [| split]].
  - exists Sample.errorTrace. split; [| reflexivity].
    unfold feasible. cbn. intuition.
  - reflexivity.
  - reflexivity.
  - reflexivity.
Qed.

(* ===================================================================== *)
(** ** Voice list *)
(* ===================================================================== *)

(** The guard of [handleVoicesChanged] keeps a selection that it sees. *)
Lemma handleVoicesChanged_keeps_seen_selection v w st :
  selectedVoice (stateAfter (handleVoicesChanged (Some v) w) st)
  = selectedVoice st.
Proof.
  unfold handleVoicesChanged, stateAfter, bind. cbn.
  rewrite andb_false_r. reflexivity.
Qed.

(** C2 on the code: the user selects Monica; the backend announces the
    same voice list again; Monica is still in the catalog, but the
    selection is back to the default voice. *)
Theorem voiceschanged_overwrites_selection :
  reachable (stateAfter (run Sample.reselectTrace) initialState)
  /\ selectedVoice
       (stateAfter
          (run (Sample.loaded ++ [CallSetSelectedVoice Sample.optionMonica]))
          initialState)
     = Some Sample.optionMonica
  /\ In Sample.voiceMonica (getVoices Sample.window)
  /\ In Sample.optionMonica
       (voices (stateAfter (run Sample.reselectTrace) initialState))
  /\ selectedVoice (stateAfter (run Sample.reselectTrace) initialState)
     = Some Sample.optionGoogle.
Proof.
  split; [| split; [reflexivity | split; [| split; [| reflexivity]]]].
  - exists Sample.reselectTrace. split; [| reflexivity].
    unfold feasible. cbn. intuition.
  - cbn. left. reflexivity.
  - cbn. left. reflexivity.
Qed.

(* ===================================================================== *)
(** ** File intake *)
(* ===================================================================== *)

(** C9: decoding a file of type "application/pdf" whose bytes the PDF
    library rejects fails with the corrupt-document error; [handleFile]
    shows that one message, and [extractedText] and the narration state
    stay as they were. *)
Theorem corrupt_pdf_is_reported_and_not_loaded
  (w : Window) (file : File) (st : State)
  (lib : PdfJsLib) (data : ArrayBuffer) :
  type file = js "application/pdf" ->
  pdfjsLib w = Some lib ->
  readAsArrayBuffer file = ReaderLoad (Some data) ->
  tryParsePdf lib data = None ->
  isProcessing st = false ->
  parsePdf w file
  = inl {| message :=
             js "Could not parse the PDF file. It may be corrupt or encrypted."
        |}
  /\ error (stateAfter (handleFile w (Some file)) st)
     = Some (js "Could not parse the PDF file. It may be corrupt or encrypted.")
  /\ extractedText (stateAfter (handleFile w (Some file)) st)
     = extractedText st
  /\ requestsOf (handleFile w (Some file)) st = []
  /\ currentWordIndex (stateAfter (handleFile w (Some file)) st)
     = currentWordIndex st
  /\ isSpeaking (stateAfter (handleFile w (Some file)) st) = isSpeaking st
  /\ isPaused (stateAfter (handleFile w (Some file)) st) = isPaused st
  /\ utteranceRef (stateAfter (handleFile w (Some file)) st)
     = utteranceRef st
  /\ isProcessing (stateAfter (handleFile w (Some file)) st) = false.
Proof.
  intros Htype Hlib Hread Htry Hproc.
  assert (Hparse : parsePdf w file
                   = inl {| message :=
                              js "Could not parse the PDF file. It may be corrupt or encrypted."
                         |}).
  { unfold parsePdf. now rewrite Hlib, Hread, Htry. }
  split; [exact Hparse |].
  unfold handleFile, stateAfter, requestsOf, bind, get.
  cbn [fst snd]. rewrite Hproc, Htype.
  change (eqb (js "application/pdf") (js "application/pdf")) with true.
  cbn iota. rewrite Hparse. cbn. repeat split.
Qed.

Lemma corrupt_pdf_is_reported_and_not_loaded_witness :
  error (stateAfter (handleFile Sample.window (Some Sample.brokenPdf))
           Sample.ready)
  = Some (js "Could not parse the PDF file. It may be corrupt or encrypted.")
  /\ extractedText
       (stateAfter (handleFile Sample.window (Some Sample.brokenPdf))
          Sample.ready) = Sample.helloBraveWorld.
Proof.
  destruct (corrupt_pdf_is_reported_and_not_loaded
              Sample.window Sample.brokenPdf Sample.ready
              (lib := Sample.rejectingPdfJs)
              (data := js "this is not a PDF")
              eq_refl eq_refl eq_refl eq_refl eq_refl)
    as (_ & Herr & Htext & _).
  split; [exact Herr | exact Htext].
Defined.

(* ===================================================================== *)
(** ** Further properties: the word index and the words on display *)
(* ===================================================================== *)

Section WordIndex.

Implicit Types (s r piece T : jsstring) (c : nat).

Lemma tokensFrom_prefix_length s : forall inRun piece c,
  (length (Spec.tokensFrom inRun piece (firstn c s))
   <= length (Spec.tokensFrom inRun piece s))%nat.
Proof.
  induction s as [| x r IH]; intros inRun piece c.
  - rewrite firstn_nil. lia.
  - destruct c as [| c]; cbn [firstn].
    + exact (tokensFrom_nonempty (x :: r) inRun piece).
    + cbn [Spec.tokensFrom].
      destruct (isWhiteSpace x), inRun; cbn [length];
        try apply IH; apply le_n_S, IH.
Qed.

Lemma wordIndexAt_le T c c' :
  (c <= c')%nat -> Spec.wordIndexAt T c <= Spec.wordIndexAt T c'.
Proof.
  intros H. unfold Spec.wordIndexAt, Spec.splitOnWhitespaceRuns, Spec.prefix.
  replace (firstn c T) with (firstn c (firstn c' T))
    by (rewrite firstn_firstn; f_equal; lia).
  pose proof (tokensFrom_prefix_length (firstn c' T) false [] c). lia.
Qed.

Lemma wordIndexAt_lt_words T c :
  Spec.wordIndexAt T c < Z.of_nat (length (split_ws T)).
Proof.
  rewrite split_ws_tokens.
  unfold Spec.wordIndexAt, Spec.splitOnWhitespaceRuns, Spec.prefix.
  pose proof (tokensFrom_prefix_length T false [] c). lia.
Qed.

(** The first token from a position inside a word is the piece read so
    far, completed up to the next white space. *)
Lemma tokensFrom_head r : forall piece,
  nth_error (Spec.tokensFrom false piece r) 0 = Some (piece ++ takeWord r).
Proof.
  induction r as [| z r IH]; intros piece; cbn [Spec.tokensFrom takeWord].
  - now rewrite app_nil_r.
  - destruct (isWhiteSpace z).
    + now rewrite app_nil_r.
    + rewrite IH, <- app_assoc. reflexivity.
Qed.

Lemma last_cons_nonempty {A} (x : A) l d :
  (1 <= length l)%nat -> last (x :: l) d = last l d.
Proof. destruct l; cbn; [lia | reflexivity]. Qed.

Lemma tokensFrom_word_at s : forall inRun piece c x,
  nth_error s c = Some x ->
  isWhiteSpace x = false ->
  nth_error (Spec.tokensFrom inRun piece s)
    (length (Spec.tokensFrom inRun piece (firstn c s)) - 1)
  = Some (last (Spec.tokensFrom inRun piece (firstn c s)) []
          ++ takeWord (skipn c s)).
Proof.
  induction s as [| y r IH]; intros inRun piece c x Hnth Hx.
  - destruct c; discriminate.
  - destruct c as [| c].
    + injection Hnth as ->.
      cbn [firstn skipn Spec.tokensFrom length Nat.sub last takeWord].
      rewrite Hx. rewrite tokensFrom_head, <- app_assoc. reflexivity.
    + cbn in Hnth. cbn [firstn skipn Spec.tokensFrom].
      destruct (isWhiteSpace y), inRun.
      * now apply IH with (x := x).
      * pose proof (tokensFrom_nonempty (firstn c r) true []) as Hlen.
        rewrite last_cons_nonempty by exact Hlen.
        cbn [length].
        replace (S (length (Spec.tokensFrom true [] (firstn c r))) - 1)%nat
          with (S (length (Spec.tokensFrom true [] (firstn c r)) - 1))
          by lia.
        cbn [nth_error]. now apply IH with (x := x).
      * now apply IH with (x := x).
      * now apply IH with (x := x).
Qed.

Lemma tokensFrom_whitespaceFree s : forall inRun piece,
  whitespaceFree piece ->
  Forall whitespaceFree (Spec.tokensFrom inRun piece s).
Proof.
  induction s as [| x r IH]; intros inRun piece Hp; cbn.
  - now constructor.
  - destruct (isWhiteSpace x) eqn:E.
    + destruct inRun.
      * apply IH. constructor.
      * constructor; [exact Hp |]. apply IH. constructor.
    + apply IH. apply Forall_app. split; [exact Hp |].
      constructor; [exact E | constructor].
Qed.

End WordIndex.

(** X1: during one utterance a later offset never gives a smaller word
    index. *)
Theorem boundary_index_monotone
  (h : BoundaryHandler) (c c' : nat) (st st' : State) :
  (c <= c')%nat ->
  currentWordIndex (stateAfter (handleBoundary h c) st)
  <= currentWordIndex (stateAfter (handleBoundary h c') st').
Proof.
  intros H. rewrite !handleBoundary_index. now apply wordIndexAt_le.
Qed.

Lemma boundary_index_monotone_witness :
  currentWordIndex
    (stateAfter
       (handleBoundary {| closure_extractedText := Sample.helloBraveWorld |} 6)
       initialState)
  <= currentWordIndex
       (stateAfter
          (handleBoundary {| closure_extractedText := Sample.helloBraveWorld |}
             12)
          initialState).
Proof.
  apply (boundary_index_monotone
           {| closure_extractedText := Sample.helloBraveWorld |}
           (c := 6) (c' := 12) initialState initialState).
  lia.
Defined.

Lemma played_boundary_in_range w text st st' u c :
  In (Speak u) (requestsOf (play w text) st) ->
  0 <= currentWordIndex (stateAfter (dispatch (OnBoundary u c)) st')
    < Z.of_nat (length (words st)).
Proof.
  intros Hin. apply play_binds_extractedText in Hin.
  cbn [dispatch]. rewrite handleBoundary_index, Hin. unfold words.
  split; [| apply wordIndexAt_lt_words].
  unfold Spec.wordIndexAt, Spec.splitOnWhitespaceRuns.
  pose proof (tokensFrom_nonempty (Spec.prefix (extractedText st) c) false []).
  lia.
Qed.

(** X2: a boundary event of an utterance that [play] started while a text
    was on display sets an index that points at one of the words of that
    text, whatever the offset. *)
Theorem boundary_index_points_at_a_word
  (w : Window) (text : jsstring) (st st' : State)
  (u : SpeechSynthesisUtterance) (c : nat) :
  In (Speak u) (requestsOf (play w text) st) ->
  0 <= currentWordIndex (stateAfter (dispatch (OnBoundary u c)) st')
    < Z.of_nat (length (words st)).
Proof.
  apply played_boundary_in_range.
Qed.

Lemma boundary_index_points_at_a_word_witness :
  0 <= currentWordIndex
         (stateAfter (dispatch (OnBoundary (Sample.utterance 0) 1000))
            Fixture.speaking)
    < Z.of_nat (length (words Sample.ready)).
Proof.
  apply (boundary_index_points_at_a_word Sample.window Sample.helloBraveWorld
           Sample.ready Fixture.speaking (Sample.utterance 0) 1000).
  cbn. right. left. reflexivity.
Defined.

(** X3: an offset at or past the end of the text gives the index of the
    last word. *)
Theorem boundary_past_end_is_last_word
  (h : BoundaryHandler) (c : nat) (st : State) :
  (length (closure_extractedText h) <= c)%nat ->
  currentWordIndex (stateAfter (handleBoundary h c) st)
  = Z.of_nat (length (split_ws (closure_extractedText h))) - 1.
Proof.
  intros H. rewrite handleBoundary_index, split_ws_tokens.
  unfold Spec.wordIndexAt, Spec.prefix. now rewrite firstn_all2.
Qed.

Lemma boundary_past_end_is_last_word_witness :
  currentWordIndex
    (stateAfter
       (handleBoundary {| closure_extractedText := Sample.helloBraveWorld |}
          17)
       initialState) = 2.
Proof.
  apply (boundary_past_end_is_last_word
           {| closure_extractedText := Sample.helloBraveWorld |}
           (c := 17) initialState).
  cbn. lia.
Defined.

(** X4: when the unit at the offset is not white space, the index set by
    the boundary handler is that of the word of the text which contains
    the offset: the unfinished last piece of the text before the offset,
    continued up to the next white space. *)
Theorem boundary_inside_word_selects_it
  (T : jsstring) (c : nat) (x : char) (st : State) :
  nth_error T c = Some x ->
  isWhiteSpace x = false ->
  nth_error (split_ws T)
    (Z.to_nat
       (currentWordIndex
          (stateAfter (handleBoundary {| closure_extractedText := T |} c) st)))
  = Some (last (split_ws (substring T 0 c)) [] ++ takeWord (skipn c T)).
Proof.
  intros Hnth Hx.
  rewrite handleBoundary_index, substring_from_0, !split_ws_tokens.
  cbn [closure_extractedText].
  unfold Spec.wordIndexAt, Spec.splitOnWhitespaceRuns, Spec.prefix.
  replace (Z.to_nat
             (Z.of_nat (length (Spec.tokensFrom false [] (firstn c T))) - 1))
    with (length (Spec.tokensFrom false [] (firstn c T)) - 1)%nat by lia.
  now apply tokensFrom_word_at with (x := x).
Qed.

Lemma boundary_inside_word_selects_it_witness :
  nth_error (split_ws (js "  Hello   brave world"))
    (Z.to_nat
       (currentWordIndex
          (stateAfter
             (handleBoundary
                {| closure_extractedText := js "  Hello   brave world" |} 12)
             initialState)))
  = Some (js "brave").
Proof.
  apply (boundary_inside_word_selects_it (js "  Hello   brave world") 12
           (x := 97%N) initialState); reflexivity.
Defined.

(** X5: no word of [words] contains white space. *)
Theorem words_are_whitespace_free :
  forall st : State, Forall whitespaceFree (words st).
Proof.
  intros st. unfold words. rewrite split_ws_tokens.
  apply tokensFrom_whitespaceFree. constructor.
Qed.

(* ===================================================================== *)
(** ** Further properties: TextDisplay *)
(* ===================================================================== *)

Section Display.

Lemma spansFrom_words ws : forall k cwi,
  map span_word (spansFrom k ws cwi) = ws.
Proof.
  induction ws as [| x r IH]; intros k cwi; cbn; [reflexivity |].
  now rewrite IH.
Qed.

Lemma spansFrom_nth ws : forall k cwi i sp,
  nth_error (spansFrom k ws cwi) i = Some sp ->
  (span_highlighted sp = true <-> Z.of_nat (k + i) = cwi).
Proof.
  induction ws as [| x r IH]; intros k cwi i sp H.
  - destruct i; discriminate.
  - destruct i as [| i]; cbn in H.
    + injection H as <-. cbn. rewrite Nat.add_0_r. apply Z.eqb_eq.
    + apply IH in H. now rewrite Nat.add_succ_r.
Qed.

Lemma spansFrom_none_before ws : forall k cwi,
  cwi < Z.of_nat k ->
  filter span_highlighted (spansFrom k ws cwi) = [].
Proof.
  induction ws as [| x r IH]; intros k cwi H; cbn; [reflexivity |].
  destruct (Z.eqb_spec (Z.of_nat k) cwi) as [E | E]; [lia |].
  apply IH. lia.
Qed.

Lemma spansFrom_at_most_one ws : forall k cwi,
  (length (filter span_highlighted (spansFrom k ws cwi)) <= 1)%nat.
Proof.
  induction ws as [| x r IH]; intros k cwi; cbn; [lia |].
  destruct (Z.eqb_spec (Z.of_nat k) cwi) as [E | E].
  - rewrite spansFrom_none_before by lia. cbn. lia.
  - apply IH.
Qed.


Lemma bind_get {A} (k : State -> M A) st : bind get k st = k st st.
Proof.
  unfold bind, get. destruct (k st st) as [[y st2] l2]. reflexivity.
Qed.




End Display.

(** X6: [TextDisplay] renders one span per word, in order; the span at
    position i is highlighted exactly when i equals [currentWordIndex], so
    at most one span is highlighted, and none when the index is negative. *)
Theorem TextDisplay_highlights_current_word_only
  (text : jsstring) (ws : list jsstring) (cwi : Z) (spans : list Span) :
  TextDisplay text ws cwi = Some spans ->
  map span_word spans = ws
  /\ (forall i sp, nth_error spans i = Some sp ->
                   (span_highlighted sp = true <-> Z.of_nat i = cwi))
  /\ (length (filter span_highlighted spans) <= 1)%nat
  /\ (cwi < 0 -> filter span_highlighted spans = []).
Proof.
  unfold TextDisplay. destruct (truthy text); [| discriminate].
  intros H. injection H as <-.
  split; [apply spansFrom_words |].
  split; [intros i sp H; now apply (spansFrom_nth ws 0 cwi i) |].
  split; [apply spansFrom_at_most_one |].
  intros H. apply spansFrom_none_before. cbn. exact H.
Qed.

Lemma TextDisplay_highlights_current_word_only_witness :
  map span_word
    [ {| span_word := js "Hello"; span_highlighted := false |};
      {| span_word := js "brave"; span_highlighted := true |};
      {| span_word := js "world"; span_highlighted := false |} ]
  = [js "Hello"; js "brave"; js "world"].
Proof.
  apply (TextDisplay_highlights_current_word_only
           Sample.helloBraveWorld [js "Hello"; js "brave"; js "world"] 1).
  reflexivity.
Defined.



(* ===================================================================== *)
(** ** Further properties: play, pause, stop and the buttons *)
(* ===================================================================== *)

(** X8: [pause()] outside the Speaking state does nothing at all: no
    request, no state change. *)
Theorem pause_is_noop_unless_speaking (st : State) :
  playState st <> Speaking ->
  pause st = (tt, st, []).
Proof.
  unfold playState, pause. rewrite bind_get.
  destruct (isSpeaking st); [congruence | reflexivity].
Qed.

Lemma pause_is_noop_unless_speaking_witness :
  pause Fixture.paused = (tt, Fixture.paused, []).
Proof.
  apply (pause_is_noop_unless_speaking Fixture.paused). discriminate.
Defined.

(** X9: calling [pause()] twice is the same as calling it once: the same
    state, and the backend is asked to pause at most once. *)
Theorem pause_twice_is_pause_once :
  forall st : State,
    stateAfter (pause ;; pause) st = stateAfter pause st
    /\ requestsOf (pause ;; pause) st = requestsOf pause st
    /\ (requestsOf pause st = [] \/ requestsOf pause st = [Pause]).
Proof.
  intros [t p e i v sv sp pa u n].
  destruct sp, pa;
    (split; [reflexivity | split; [reflexivity |]]);
    first [left; reflexivity | right; reflexivity].
Qed.

(** X10: [play] sends nothing, or one resume, or one cancel followed by
    one speak of the given text; it never speaks without cancelling first
    and never builds more than one utterance. When it sends nothing it
    changes nothing. *)
Theorem play_requests_shape :
  forall (w : Window) (text : jsstring) (st : State),
    play w text st = (tt, st, [])
    \/ requestsOf (play w text) st = [Resume]
    \/ exists u,
         requestsOf (play w text) st = [Cancel; Speak u]
         /\ utterance_text u = text
         /\ utteranceRef (stateAfter (play w text) st) = Some u.
Proof.
  intros w text st.
  destruct (isPaused st && isSome (utteranceRef st)) eqn:Hresume.
  - right. left. apply (play_resume w text st Hresume).
  - destruct (selectedVoice st) as [selected |] eqn:Hsel.
    + destruct (truthy text) eqn:Htext.
      * right. right.
        destruct (play_fresh w text st Hresume Hsel Htext)
          as (Hreq & Href & _).
        eexists. split; [exact Hreq |]. split; [reflexivity | exact Href].
      * left. unfold play. rewrite bind_get, Hresume, Hsel, Htext.
        reflexivity.
    + left. unfold play. rewrite bind_get, Hresume, Hsel. reflexivity.
Qed.

Section ReachableFacts.

Lemma run_invariant (P : State -> Prop) :
  (forall e st, P st -> P (stateAfter (dispatch e) st)) ->
  forall trace st, P st -> P (stateAfter (run trace) st).
Proof.
  intros Hstep trace.
  induction trace as [| e rest IH]; intros st H; [exact H |].
  cbn [run]. rewrite stateAfter_bind. apply IH, Hstep, H.
Qed.

Lemma reachable_invariant (P : State -> Prop) :
  P initialState ->
  (forall e st, P st -> P (stateAfter (dispatch e) st)) ->
  forall st, reachable st -> P st.
Proof.
  intros Hinit Hstep st (trace & _ & <-). now apply run_invariant.
Qed.

Lemma dispatch_activeHasUtterance e st :
  activeHasUtterance st -> activeHasUtterance (stateAfter (dispatch e) st).
Proof.
  unfold activeHasUtterance, stateAfter.
  destruct e as [w | w | v | w text | | | w file | u c | u | u]; cbn;
    intros H; try exact H; try discriminate.
  - unfold voiceschangedListener, handleVoicesChanged, bind. cbn.
    match goal with |- context [if ?b then _ else _] => destruct b end;
      cbn; exact H.
  - unfold voiceschangedListener, handleVoicesChanged, bind. cbn.
    match goal with |- context [if ?b then _ else _] => destruct b end;
      cbn; exact H.
  - unfold play, bind, get. cbn.
    destruct (isPaused st && isSome (utteranceRef st)) eqn:E; cbn.
    + intros _. apply andb_prop in E as [_ E].
      destruct (utteranceRef st); [discriminate | discriminate E].
    + destruct (selectedVoice st); cbn; [| exact H].
      destruct (truthy text); cbn; [discriminate | exact H].
  - unfold pause, bind, get. cbn.
    destruct (isSpeaking st && negb (isPaused st)) eqn:E; cbn; [| exact H].
    intros _. apply H. apply andb_prop in E as [-> _]. reflexivity.
  - destruct file as [file |]; cbn; [| exact H].
    unfold bind. cbn.
    destruct (isProcessing st); cbn; [exact H |].
    match goal with
    | |- context [match ?x with inl _ => _ | inr _ => _ end] => destruct x
    end; cbn; [exact H | discriminate].
Qed.

Lemma reachable_activeHasUtterance st :
  reachable st -> activeHasUtterance st.
Proof.
  apply reachable_invariant.
  - intros H. discriminate H.
  - apply dispatch_activeHasUtterance.
Qed.

Lemma dispatch_voices_supported e st :
  Forall (fun v => supportedLanguage (lang v) = true) (voices st) ->
  Forall (fun v => supportedLanguage (lang v) = true)
    (voices (stateAfter (dispatch e) st)).
Proof.
  assert (Hlistener : forall w,
             Forall (fun v => supportedLanguage (lang v) = true)
               (voices (stateAfter (voiceschangedListener w) st))).
  { intros w.
    unfold stateAfter, voiceschangedListener, handleVoicesChanged, bind. cbn.
    match goal with |- context [if ?b then _ else _] => destruct b end;
      cbn; apply Forall_forall; intros v Hin;
      apply in_map_iff in Hin as (raw & <- & Hraw);
      apply filter_In in Hraw as [_ Hraw]; exact Hraw. }
  unfold stateAfter in *.
  destruct e as [w | w | v | w text | | | w file | u c | u | u];
    cbn [dispatch]; intros H; try exact H; try apply Hlistener.
  - unfold play, bind, get. cbn.
    destruct (isPaused st && isSome (utteranceRef st)); cbn; [exact H |].
    destruct (selectedVoice st); cbn; [| exact H].
    destruct (truthy text); cbn; exact H.
  - unfold pause, bind, get. cbn.
    destruct (isSpeaking st && negb (isPaused st)); cbn; exact H.
  - destruct file as [file |]; cbn; [| exact H].
    unfold bind. cbn.
    destruct (isProcessing st); cbn; [exact H |].
    match goal with
    | |- context [match ?x with inl _ => _ | inr _ => _ end] => destruct x
    end; cbn; exact H.
Qed.

Lemma reachable_paused : reachable Fixture.paused.
Proof.
  exists Fixture.pausedTrace. split; [| unfold Fixture.paused; reflexivity].
  unfold feasible. cbn. intuition.
Qed.

Lemma reachable_speaking : reachable Fixture.speaking.
Proof.
  exists Fixture.speakingTrace.
  split; [| unfold Fixture.speaking; reflexivity].
  unfold feasible. cbn. intuition.
Qed.

End ReachableFacts.

(** X11: in every reachable state with [isPaused] set there is an
    utterance to resume, so [play], whatever its text, sends one resume
    request, builds no utterance and brings the session back to
    Speaking. *)
Theorem paused_play_always_resumes
  (w : Window) (text : jsstring) (st : State) :
  reachable st ->
  isPaused st = true ->
  utteranceRef st <> None
  /\ requestsOf (play w text) st = [Resume]
  /\ utteranceRef (stateAfter (play w text) st) = utteranceRef st
  /\ playState (stateAfter (play w text) st) = Speaking.
Proof.
  intros Hr Hp.
  assert (Href : utteranceRef st <> None).
  { apply (reachable_activeHasUtterance Hr). rewrite Hp. apply orb_true_r. }
  split; [exact Href |].
  assert (Hresume : isPaused st && isSome (utteranceRef st) = true).
  { rewrite Hp. destruct (utteranceRef st); [reflexivity | contradiction]. }
  destruct (play_resume w text st Hresume) as (Hreq & Hu & _ & Hs & _).
  split; [exact Hreq |]. split; [exact Hu |].
  unfold playState. now rewrite Hs.
Qed.

Lemma paused_play_always_resumes_witness :
  requestsOf (play Sample.window (js "Another text")) Fixture.paused
  = [Resume].
Proof.
  apply (paused_play_always_resumes Sample.window (js "Another text")
           reachable_paused).
  reflexivity.
Defined.

(** X12: while a document is being read aloud, pressing the play/pause
    button twice pauses and resumes the same utterance and restores the
    state exactly. *)
Theorem play_pause_button_round_trip (w : Window) (st : State) :
  reachable st ->
  extractedText st <> [] ->
  isSpeaking st = true ->
  stateAfter (clickPlayPause w ;; clickPlayPause w) st = st
  /\ requestsOf (clickPlayPause w ;; clickPlayPause w) st = [Pause; Resume].
Proof.
  intros Hr Ht Hs.
  pose proof (reachable_flagsExclusive Hr) as Hex.
  pose proof (reachable_activeHasUtterance Hr) as Hact.
  unfold flagsExclusive, activeHasUtterance in *.
  destruct st as [t p e i v sv sp pa u n]. cbn in *. subst sp.
  cbn in Hex. subst pa.
  destruct u as [u |]; [| now exfalso; apply Hact].
  destruct t as [| c r]; [contradiction |].
  split; reflexivity.
Qed.

Lemma play_pause_button_round_trip_witness :
  stateAfter (clickPlayPause Sample.window ;; clickPlayPause Sample.window)
    Fixture.speaking = Fixture.speaking.
Proof.
  apply (play_pause_button_round_trip Sample.window reachable_speaking).
  - discriminate.
  - reflexivity.
Defined.

(** X13: [stop()] followed by [play(text)] never resumes: with a selected
    voice and a non-empty text it always starts a new utterance of that
    text, also from the Paused state. *)
Theorem stop_then_play_starts_anew
  (w : Window) (text : jsstring) (st : State) (selected : VoiceOption) :
  selectedVoice st = Some selected ->
  text <> [] ->
  exists u,
    requestsOf (stop ;; play w text) st = [Cancel; Cancel; Speak u]
    /\ utterance_text u = text
    /\ utteranceRef (stateAfter (stop ;; play w text) st) = Some u
    /\ playState (stateAfter (stop ;; play w text) st) = Speaking
    /\ currentWordIndex (stateAfter (stop ;; play w text) st) = -1.
Proof.
  intros Hsel Ht.
  destruct st as [t p e i v sv sp pa u n]. cbn in Hsel. subst sv.
  destruct text as [| c r]; [contradiction |].
  eexists. repeat split.
Qed.

Lemma stop_then_play_starts_anew_witness :
  exists u,
    requestsOf (stop ;; play Sample.window Sample.helloBraveWorld)
      Fixture.paused = [Cancel; Cancel; Speak u]
    /\ utterance_text u = Sample.helloBraveWorld
    /\ utteranceRef
         (stateAfter (stop ;; play Sample.window Sample.helloBraveWorld)
            Fixture.paused) = Some u
    /\ playState
         (stateAfter (stop ;; play Sample.window Sample.helloBraveWorld)
            Fixture.paused) = Speaking
    /\ currentWordIndex
         (stateAfter (stop ;; play Sample.window Sample.helloBraveWorld)
            Fixture.paused) = -1.
Proof.
  apply (stop_then_play_starts_anew Sample.window (text := Sample.helloBraveWorld)
           Fixture.paused (selected := Sample.optionGoogle)).
  - reflexivity.
  - discriminate.
Defined.

(* ===================================================================== *)
(** ** Further properties: the voice catalog *)
(* ===================================================================== *)

Section Catalog.

Lemma eqb_true a b : eqb a b = true <-> a = b.
Proof.
  unfold eqb. destruct (list_eq_dec N.eq_dec a b); split;
    congruence || discriminate || reflexivity.
Qed.

Lemma filter_nothing {A} (f : A -> bool) (l : list A) :
  (forall x, In x l -> f x = false) -> filter f l = [].
Proof.
  induction l as [| x l IH]; intros H; [reflexivity |].
  cbn. rewrite (H x) by now left.
  apply IH. intros y Hy. apply H. now right.
Qed.

(** What the listener leaves in the state. *)
Lemma voiceschangedListener_effect w st :
  let availableVoices :=
    map (fun v => {| name := voice_name v; lang := voice_lang v;
                     uri := voiceURI v |})
      (filter (fun voice => supportedLanguage (voice_lang voice))
         (getVoices w)) in
  voices (stateAfter (voiceschangedListener w) st) = availableVoices
  /\ selectedVoice (stateAfter (voiceschangedListener w) st)
     = match availableVoices with
       | [] => selectedVoice st
       | first :: _ =>
           match find preferredVoice availableVoices with
           | Some v => Some v
           | None => Some first
           end
       end.
Proof.
  unfold stateAfter, voiceschangedListener, handleVoicesChanged, bind.
  cbn -[filter]. fold supportedLanguage.
  change (fun voice : SpeechSynthesisVoice =>
            startsWith (voice_lang voice) (js "en")
            || startsWith (voice_lang voice) (js "es")
            || startsWith (voice_lang voice) (js "pt"))
    with (fun voice => supportedLanguage (voice_lang voice)).
  destruct (map _ (filter _ (getVoices w))) as [| first rest] eqn:E;
    cbn; split; reflexivity.
Qed.

End Catalog.

(** X14: every voice that is ever offered in the catalog has a language
    tag beginning with "en", "es" or "pt". *)
Theorem catalog_voices_have_supported_language (st : State) :
  reachable st ->
  Forall (fun v => supportedLanguage (lang v) = true) (voices st).
Proof.
  revert st.
  apply (@reachable_invariant
           (fun s => Forall (fun v => supportedLanguage (lang v) = true)
                       (voices s))).
  - constructor.
  - apply dispatch_voices_supported.
Qed.

Lemma catalog_voices_have_supported_language_witness :
  Forall (fun v => supportedLanguage (lang v) = true) (voices Fixture.paused).
Proof.
  apply (catalog_voices_have_supported_language reachable_paused).
Defined.

(** X15: when the backend reports at least one supported voice, the
    listener selects a voice of the new catalog: a voice whose name
    contains "Google" and whose language begins with "en" if the catalog
    has one, the first voice of the catalog otherwise. *)
Theorem voiceschanged_selects_default_from_catalog
  (w : Window) (st : State) (first : VoiceOption) (rest : list VoiceOption) :
  voices (stateAfter (voiceschangedListener w) st) = first :: rest ->
  exists v,
    selectedVoice (stateAfter (voiceschangedListener w) st) = Some v
    /\ In v (first :: rest)
    /\ ((exists g, In g (first :: rest) /\ preferredVoice g = true) ->
        preferredVoice v = true)
    /\ ((forall g, In g (first :: rest) -> preferredVoice g = false) ->
        v = first).
Proof.
  destruct (voiceschangedListener_effect w st) as [Hv Hs].
  cbv zeta in Hv, Hs. rewrite Hv. intros E. rewrite E in Hs.
  destruct (find preferredVoice (first :: rest)) as [v |] eqn:F.
  - exists v. split; [exact Hs |].
    apply find_some in F as [Hin Hp].
    split; [exact Hin |]. split; [intros _; exact Hp |].
    intros Hnone. rewrite (Hnone v Hin) in Hp. discriminate.
  - exists first. split; [exact Hs |].
    split; [now left |]. split; [| reflexivity].
    intros (g & Hin & Hp).
    rewrite (find_none _ _ F g Hin) in Hp. discriminate.
Qed.

Lemma voiceschanged_selects_default_from_catalog_witness :
  exists v,
    selectedVoice (stateAfter (voiceschangedListener Sample.window)
                     initialState) = Some v
    /\ In v [Sample.optionMonica; Sample.optionGoogle]
    /\ ((exists g, In g [Sample.optionMonica; Sample.optionGoogle]
                   /\ preferredVoice g = true) ->
        preferredVoice v = true)
    /\ ((forall g, In g [Sample.optionMonica; Sample.optionGoogle] ->
                   preferredVoice g = false) ->
        v = Sample.optionMonica).
Proof.
  apply (voiceschanged_selects_default_from_catalog Sample.window
           initialState (first := Sample.optionMonica)
           (rest := [Sample.optionGoogle])).
  reflexivity.
Defined.

(** X16: a report without any supported voice empties the catalog and
    leaves the selected voice as it was. *)
Theorem voiceschanged_without_supported_voice_keeps_selection
  (w : Window) (st : State) :
  (forall raw, In raw (getVoices w) ->
               supportedLanguage (voice_lang raw) = false) ->
  voices (stateAfter (voiceschangedListener w) st) = []
  /\ selectedVoice (stateAfter (voiceschangedListener w) st)
     = selectedVoice st.
Proof.
  intros Hnone.
  destruct (voiceschangedListener_effect w st) as [Hv Hs].
  cbv zeta in Hv, Hs.
  assert (E : filter (fun voice => supportedLanguage (voice_lang voice))
                (getVoices w) = []).
  { apply filter_nothing. exact Hnone. }
  rewrite E in Hv, Hs. cbn in Hv, Hs. now split.
Qed.

Lemma voiceschanged_without_supported_voice_keeps_selection_witness :
  voices (stateAfter (voiceschangedListener Sample.silentWindow)
            Fixture.paused) = []
  /\ selectedVoice (stateAfter (voiceschangedListener Sample.silentWindow)
                      Fixture.paused)
     = selectedVoice Fixture.paused.
Proof.
  apply (voiceschanged_without_supported_voice_keeps_selection
           Sample.silentWindow Fixture.paused).
  intros raw [].
Defined.

(** X17: the listener is idempotent: two reports of the same voice list
    leave the same state as one, and neither sends a request to the
    backend. *)
Theorem voiceschanged_twice_is_once :
  forall (w : Window) (st : State),
    stateAfter (voiceschangedListener w ;; voiceschangedListener w) st
    = stateAfter (voiceschangedListener w) st
    /\ requestsOf (voiceschangedListener w ;; voiceschangedListener w) st
       = [].
Proof.
  intros w st.
  unfold stateAfter, requestsOf, voiceschangedListener, handleVoicesChanged,
    bind.
  cbn -[filter].
  destruct (map _ (filter _ (getVoices w))) as [| first rest];
    cbn; split; reflexivity.
Qed.

(** X18: choosing an entry of the voice menu selects a voice of the
    catalog with that uri; a uri that no catalog voice has changes
    nothing. Nothing is sent to the backend. *)
Theorem handleVoiceSelect_picks_catalog_voice :
  forall (selectedUri : jsstring) (st : State),
    requestsOf (handleVoiceSelect selectedUri) st = []
    /\ ((handleVoiceSelect selectedUri st = (tt, st, [])
         /\ (forall v, In v (voices st) -> uri v <> selectedUri))
        \/ (exists v,
              In v (voices st) /\ uri v = selectedUri
              /\ handleVoiceSelect selectedUri st
                 = setSelectedVoice (Some v) st)).
Proof.
  intros selectedUri st. unfold requestsOf, handleVoiceSelect.
  rewrite bind_get.
  destruct (find (fun v => eqb (uri v) selectedUri) (voices st))
    as [v |] eqn:F.
  - split; [reflexivity |]. right. exists v.
    apply find_some in F as [Hin Hu]. apply eqb_true in Hu.
    repeat split; assumption.
  - split; [reflexivity |]. left. split; [reflexivity |].
    intros v Hin Hu.
    pose proof (find_none _ _ F v Hin) as Hf. cbn in Hf.
    apply eqb_true in Hu. congruence.
Qed.

(* ===================================================================== *)
(** ** Further properties: file intake *)
(* ===================================================================== *)

Section Intake.

Lemma eqb_false a b : a <> b -> eqb a b = false.
Proof.
  intros H. destruct (eqb a b) eqn:E; [| reflexivity].
  apply eqb_true in E. contradiction.
Qed.

Lemma handleFile_decode w file st :
  isProcessing st = false ->
  handleFile w (Some file) st
  = (setError None ;;
     setProcessing true ;;
     match decodeFile w file with
     | inr text => handleFileProcessed text
     | inl err =>
         setError (Some (if truthy (message err) then message err
                         else js "Failed to process the file."))
     end ;;
     setProcessing false) st.
Proof.
  intros H. unfold handleFile. rewrite bind_get, H. reflexivity.
Qed.

(** Every error that decoding can end with carries a message. *)
Lemma decodeFile_error_truthy w file e :
  decodeFile w file = inl e -> truthy (message e) = true.
Proof.
  unfold decodeFile, parsePdf, parseDocx.
  destruct (eqb (type file) (js "application/pdf")).
  - destruct (pdfjsLib w) as [lib |].
    + destruct (readAsArrayBuffer file) as [| [data |]].
      * intros H. injection H as <-. reflexivity.
      * destruct (tryParsePdf lib data); [discriminate |].
        intros H. injection H as <-. reflexivity.
      * intros H. injection H as <-. reflexivity.
    + intros H. injection H as <-. reflexivity.
  - destruct (eqb (type file) _).
    + destruct (mammoth w) as [lib |].
      * destruct (readAsArrayBuffer file) as [| [data |]].
        -- intros H. injection H as <-. reflexivity.
        -- destruct (extractRawText lib data); [discriminate |].
           intros H. injection H as <-. reflexivity.
        -- intros H. injection H as <-. reflexivity.
      * intros H. injection H as <-. reflexivity.
    + intros H. injection H as <-. reflexivity.
Qed.

Lemma pdfPages_all pdf (contents : nat -> TextContent) : forall n i acc,
  (forall j, (i <= j < i + n)%nat ->
             exists page, getPage pdf j = Some page
                          /\ getTextContent page = Some (contents j)) ->
  pdfPages pdf n i acc
  = Some (acc ++ concat (map (fun j => pageLine (contents j)) (seq i n))).
Proof.
  induction n as [| n IH]; intros i acc H; cbn [pdfPages seq map concat].
  - now rewrite app_nil_r.
  - destruct (H i) as (page & -> & ->); [lia |].
    rewrite IH by (intros j Hj; apply H; lia).
    unfold pageLine. now rewrite <- !app_assoc.
Qed.

Lemma pdfPages_fails pdf : forall n i acc j,
  (i <= j < i + n)%nat ->
  (getPage pdf j = None
   \/ exists page, getPage pdf j = Some page /\ getTextContent page = None) ->
  pdfPages pdf n i acc = None.
Proof.
  induction n as [| n IH]; intros i acc j Hj Hfail; [lia |].
  cbn [pdfPages].
  destruct (Nat.eq_dec j i) as [-> | Hne].
  - destruct Hfail as [-> | (page & -> & ->)]; reflexivity.
  - destruct (getPage pdf i) as [page |]; [| reflexivity].
    destruct (getTextContent page); [| reflexivity].
    apply (IH (S i) _ j); [lia | exact Hfail].
Qed.

End Intake.

(** X19: [handleFile] loads all or nothing. If decoding resolves, the text
    on display becomes the decoded text, the error is cleared, narration is
    stopped with one cancel request and the cursor is reset. If decoding
    rejects, the error shown is the (never empty) message of the rejection,
    and the text on display, the narration state and the backend are left
    alone. Either way [isProcessing] ends false. *)
Theorem handleFile_loads_all_or_nothing
  (w : Window) (file : File) (st : State) :
  isProcessing st = false ->
  isProcessing (stateAfter (handleFile w (Some file)) st) = false
  /\ ((exists text,
          decodeFile w file = inr text
          /\ extractedText (stateAfter (handleFile w (Some file)) st) = text
          /\ error (stateAfter (handleFile w (Some file)) st) = None
          /\ requestsOf (handleFile w (Some file)) st = [Cancel]
          /\ playState (stateAfter (handleFile w (Some file)) st) = Idle
          /\ currentWordIndex (stateAfter (handleFile w (Some file)) st) = -1
          /\ utteranceRef (stateAfter (handleFile w (Some file)) st) = None)
      \/ (exists e,
             decodeFile w file = inl e
             /\ error (stateAfter (handleFile w (Some file)) st)
                = Some (message e)
             /\ message e <> []
             /\ extractedText (stateAfter (handleFile w (Some file)) st)
                = extractedText st
             /\ requestsOf (handleFile w (Some file)) st = []
             /\ isSpeaking (stateAfter (handleFile w (Some file)) st)
                = isSpeaking st
             /\ isPaused (stateAfter (handleFile w (Some file)) st)
                = isPaused st
             /\ utteranceRef (stateAfter (handleFile w (Some file)) st)
                = utteranceRef st
             /\ currentWordIndex (stateAfter (handleFile w (Some file)) st)
                = currentWordIndex st)).
Proof.
  intros Hp. unfold stateAfter, requestsOf.
  rewrite (handleFile_decode w file st Hp).
  destruct (decodeFile w file) as [e | text] eqn:D.
  - pose proof (decodeFile_error_truthy w file D) as Ht.
    split; [reflexivity |]. right. exists e.
    split; [reflexivity |].
    destruct (message e) as [| c r] eqn:M; [discriminate Ht |].
    unfold bind. cbn.
    repeat split. discriminate.
  - split; [reflexivity |]. left. exists text. repeat split.
Qed.

Lemma handleFile_loads_all_or_nothing_witness :
  isProcessing
    (stateAfter (handleFile Sample.window (Some Sample.helloDocx))
       Fixture.paused) = false.
Proof.
  apply (handleFile_loads_all_or_nothing Sample.window Sample.helloDocx
           Fixture.paused).
  reflexivity.
Defined.

(** X20: a call of [handleFile] without a file, or while another file is
    being processed, is ignored: no state change, no error message, no
    request. *)
Theorem handleFile_ignored_without_file_or_while_processing
  (w : Window) (file : option File) (st : State) :
  file = None \/ isProcessing st = true ->
  handleFile w file st = (tt, st, []).
Proof.
  intros [-> | Hp]; [reflexivity |].
  destruct file as [file |]; [| reflexivity].
  unfold handleFile. rewrite bind_get, Hp. reflexivity.
Qed.

Lemma handleFile_ignored_without_file_or_while_processing_witness :
  handleFile Sample.window None Fixture.paused = (tt, Fixture.paused, []).
Proof.
  apply (handleFile_ignored_without_file_or_while_processing
           Sample.window (file := None) Fixture.paused).
  left. reflexivity.
Defined.

(** X21: a file whose type is neither the PDF nor the DOCX type is
    refused with the "Unsupported file type" message, whatever it contains
    and whether or not the parsing libraries are present; the text on
    display stays and nothing is sent to the backend. *)
Theorem handleFile_refuses_other_types
  (w : Window) (file : File) (st : State) :
  type file <> js "application/pdf" ->
  type file
  <> js "application/vnd.openxmlformats-officedocument.wordprocessingml.document" ->
  isProcessing st = false ->
  error (stateAfter (handleFile w (Some file)) st)
  = Some (js "Unsupported file type. Please upload a PDF or DOCX file.")
  /\ extractedText (stateAfter (handleFile w (Some file)) st)
     = extractedText st
  /\ requestsOf (handleFile w (Some file)) st = [].
Proof.
  intros Hpdf Hdocx Hp. unfold stateAfter, requestsOf.
  rewrite (handleFile_decode w file st Hp). unfold decodeFile.
  rewrite (eqb_false Hpdf), (eqb_false Hdocx).
  repeat split.
Qed.

Lemma handleFile_refuses_other_types_witness :
  error (stateAfter (handleFile Sample.window (Some Fixture.textFile))
           Sample.ready)
  = Some (js "Unsupported file type. Please upload a PDF or DOCX file.")
  /\ extractedText
       (stateAfter (handleFile Sample.window (Some Fixture.textFile))
          Sample.ready) = extractedText Sample.ready
  /\ requestsOf (handleFile Sample.window (Some Fixture.textFile))
       Sample.ready = [].
Proof.
  apply (handleFile_refuses_other_types Sample.window Fixture.textFile
           Sample.ready); [discriminate | discriminate | reflexivity].
Defined.

(** X22: when every page from 1 to [numPages] can be read, [parsePdf]
    resolves with the pages in order, each as its text items joined by
    single spaces and ended by a line feed. *)
Theorem parsePdf_joins_pages_in_order
  (w : Window) (file : File) (lib : PdfJsLib) (data : ArrayBuffer)
  (pdf : PdfDocument) (contents : nat -> TextContent) :
  pdfjsLib w = Some lib ->
  readAsArrayBuffer file = ReaderLoad (Some data) ->
  getDocument lib data = Some pdf ->
  (forall i, (1 <= i <= numPages pdf)%nat ->
             exists page, getPage pdf i = Some page
                          /\ getTextContent page = Some (contents i)) ->
  parsePdf w file
  = inr (concat (map (fun i => join (js " ") (map str (items (contents i)))
                               ++ [10%N])
                   (seq 1 (numPages pdf)))).
Proof.
  intros Hlib Hread Hdoc Hpages.
  unfold parsePdf, tryParsePdf. rewrite Hlib, Hread, Hdoc.
  rewrite (pdfPages_all pdf contents) by (intros j Hj; apply Hpages; lia).
  reflexivity.
Qed.

Lemma parsePdf_joins_pages_in_order_witness :
  parsePdf (Fixture.pdfWindow Fixture.twoPages) Fixture.somePdf
  = inr (js "Hello brave" ++ [10%N] ++ js "world" ++ [10%N]).
Proof.
  apply (parsePdf_joins_pages_in_order
           (Fixture.pdfWindow Fixture.twoPages) Fixture.somePdf
           (lib := {| getDocument := fun _ => Some Fixture.twoPages |})
           (data := js "%PDF-1.7") (pdf := Fixture.twoPages)
           (fun i =>
              match i with
              | 1%nat => {| items := [{| str := js "Hello" |};
                                      {| str := js "brave" |}] |}
              | _ => {| items := [{| str := js "world" |}] |}
              end)); try reflexivity.
  intros i Hi. cbn in Hi.
  destruct i as [| [| [| i]]]; [lia | | | lia];
    eexists; split; reflexivity.
Defined.

(** X23: when any page from 1 to [numPages] cannot be fetched or read,
    [parsePdf] rejects with the corrupt-document message: no text of the
    pages before it is returned. *)
Theorem parsePdf_rejects_when_a_page_fails
  (w : Window) (file : File) (lib : PdfJsLib) (data : ArrayBuffer)
  (pdf : PdfDocument) (i : nat) :
  pdfjsLib w = Some lib ->
  readAsArrayBuffer file = ReaderLoad (Some data) ->
  getDocument lib data = Some pdf ->
  (1 <= i <= numPages pdf)%nat ->
  (getPage pdf i = None
   \/ exists page, getPage pdf i = Some page /\ getTextContent page = None) ->
  parsePdf w file
  = inl {| message :=
             js "Could not parse the PDF file. It may be corrupt or encrypted."
        |}.
Proof.
  intros Hlib Hread Hdoc Hi Hfail.
  unfold parsePdf, tryParsePdf. rewrite Hlib, Hread, Hdoc.
  rewrite (@pdfPages_fails pdf (numPages pdf) 1%nat [] i); trivial.
  lia.
Qed.

Lemma parsePdf_rejects_when_a_page_fails_witness :
  parsePdf (Fixture.pdfWindow Fixture.brokenSecondPage) Fixture.somePdf
  = inl {| message :=
             js "Could not parse the PDF file. It may be corrupt or encrypted."
        |}.
Proof.
  apply (parsePdf_rejects_when_a_page_fails
           (Fixture.pdfWindow Fixture.brokenSecondPage) Fixture.somePdf
           (lib := {| getDocument := fun _ => Some Fixture.brokenSecondPage |})
           (data := js "%PDF-1.7") (pdf := Fixture.brokenSecondPage) (i := 2));
    try reflexivity.
  - cbn. lia.
  - right. eexists. split; reflexivity.
Defined.

(** X24: a PDF without pages decodes to the empty text; [handleFile] then
    reports no error and, the text on display being empty, no text display
    is rendered. *)
Theorem empty_pdf_loads_silently
  (w : Window) (file : File) (st : State) (lib : PdfJsLib)
  (data : ArrayBuffer) (pdf : PdfDocument) :
  type file = js "application/pdf" ->
  pdfjsLib w = Some lib ->
  readAsArrayBuffer file = ReaderLoad (Some data) ->
  getDocument lib data = Some pdf ->
  numPages pdf = 0%nat ->
  isProcessing st = false ->
  error (stateAfter (handleFile w (Some file)) st) = None
  /\ extractedText (stateAfter (handleFile w (Some file)) st) = []
  /\ renderTextDisplay (stateAfter (handleFile w (Some file)) st) = None.
Proof.
  intros Htype Hlib Hread Hdoc Hn Hp.
  unfold stateAfter.
  rewrite (handleFile_decode w file st Hp). unfold decodeFile.
  rewrite Htype.
  change (eqb (js "application/pdf") (js "application/pdf")) with true.
  cbn iota. unfold parsePdf, tryParsePdf.
  rewrite Hlib, Hread, Hdoc, Hn. cbn [pdfPages].
  repeat split.
Qed.

Lemma empty_pdf_loads_silently_witness :
  error
    (stateAfter
       (handleFile
          (Fixture.pdfWindow {| numPages := 0; getPage := fun _ => None |})
          (Some Fixture.somePdf)) Sample.ready) = None
  /\ extractedText
       (stateAfter
          (handleFile
             (Fixture.pdfWindow {| numPages := 0; getPage := fun _ => None |})
             (Some Fixture.somePdf)) Sample.ready) = []
  /\ renderTextDisplay
       (stateAfter
          (handleFile
             (Fixture.pdfWindow {| numPages := 0; getPage := fun _ => None |})
             (Some Fixture.somePdf)) Sample.ready) = None.
Proof.
  apply (empty_pdf_loads_silently
           (Fixture.pdfWindow {| numPages := 0; getPage := fun _ => None |})
           Fixture.somePdf Sample.ready
           (lib := {| getDocument := fun _ =>
                        Some {| numPages := 0; getPage := fun _ => None |} |})
           (data := js "%PDF-1.7")
           (pdf := {| numPages := 0; getPage := fun _ => None |}));
    reflexivity.
Defined.

(* ===================================================================== *)
(** ** Further properties: the words of a PDF *)
(* ===================================================================== *)

Section PdfWords.

Lemma tokensFrom_trailing_space s c d : forall inRun piece,
  isWhiteSpace c = true ->
  last (Spec.tokensFrom inRun piece (s ++ [c])) d = [].
Proof.
  induction s as [| x r IH]; intros inRun piece Hc; cbn [app Spec.tokensFrom].
  - rewrite Hc. destruct inRun; reflexivity.
  - destruct (isWhiteSpace x), inRun; try (apply IH; exact Hc).
    rewrite last_cons_nonempty by apply tokensFrom_nonempty.
    apply IH. exact Hc.
Qed.

Lemma pdfPages_ends_with_line_feed pdf : forall n i acc text,
  pdfPages pdf n i acc = Some text ->
  (n = 0%nat /\ text = acc) \/ exists body, text = body ++ [10%N].
Proof.
  induction n as [| n IH]; intros i acc text H; cbn [pdfPages] in H.
  - left. injection H as <-. now split.
  - right.
    destruct (getPage pdf i) as [page |]; [| discriminate].
    destruct (getTextContent page) as [t |]; [| discriminate].
    apply IH in H as [[_ ->] | [body ->]].
    + eexists. rewrite app_assoc. reflexivity.
    + now exists body.
Qed.

End PdfWords.

(** X25: every non-empty text that [parsePdf] resolves with ends with a
    line feed, so the last entry of its word list is the empty word. *)
Theorem pdf_words_end_with_empty_word
  (w : Window) (file : File) (text : jsstring) :
  parsePdf w file = inr text ->
  text <> [] ->
  (exists body, text = body ++ [10%N])
  /\ last (split_ws text) text = [].
Proof.
  intros H Hne. unfold parsePdf in H.
  destruct (pdfjsLib w) as [lib |]; [| discriminate].
  destruct (readAsArrayBuffer file) as [| [data |]]; try discriminate.
  destruct (tryParsePdf lib data) as [t |] eqn:E; [| discriminate].
  injection H as ->. unfold tryParsePdf in E.
  destruct (getDocument lib data) as [pdf |]; [| discriminate].
  apply pdfPages_ends_with_line_feed in E as [[_ ->] | [body ->]];
    [contradiction |].
  split; [now exists body |].
  rewrite split_ws_tokens. unfold Spec.splitOnWhitespaceRuns.
  now apply tokensFrom_trailing_space.
Qed.

Lemma pdf_words_end_with_empty_word_witness :
  last (split_ws (js "Hello brave" ++ [10%N] ++ js "world" ++ [10%N]))
    (js "Hello brave" ++ [10%N] ++ js "world" ++ [10%N]) = [].
Proof.
  apply (pdf_words_end_with_empty_word
           (Fixture.pdfWindow Fixture.twoPages) Fixture.somePdf).
  - reflexivity.
  - discriminate.
Defined.
